(** * The WebSocket client service of [src/lib/websocket.ts]

    A shallow embedding of the [WebSocketService] class, of the singleton
    accessor [getWebSocketService] and of the part of their environment they
    talk to: the transport handles returned by [io], the pending [setTimeout]
    callbacks, the [window] event target and the toast library.

    The service is written in a small state-and-exception monad over one
    record, [State], which holds the fields of the (single) instance next to
    the environment.  What the environment decides is an explicit argument of
    the definitions:
    - whether [io] or [socket.emit] raises, and what [Date.now] returns
      ([Env]);
    - when a handle emits an event to its listeners ([Receive]); any handle
      ever opened may emit any event at any time, which covers what the
      transport library does on its own, its automatic reconnection included;
    - when a pending timer fires ([Timeout]).
    Handles are numbered in the order [io] returns them and are all kept,
    since the service never destroys one.  The callbacks of the application
    are opaque: that one is called is recorded, and whether it raises is
    again the environment's.  Console output is left out. *)

From stdpp Require Import base list strings pretty.
From Stdlib Require Import ZArith Lia.

Open Scope Z_scope.

(** ** Values carried by events *)

(** The value of a field that the service compares, tests and prints, as
    the service observes it: what [v > 0], [if (v)] and a template literal
    give for it.  Any value can sit in such a field (an integer, a fraction,
    a numeric string); how JavaScript coerces it is not the service's. *)
Record Observed := mkObserved {
  positive : bool;
  truthy : bool;
  text : string }.

(** An integer below [10 ^ 21] in absolute value, which is printed in
    decimal. *)
Definition integer (n : Z) : Observed :=
  {| positive := 0 <? n; truthy := negb (n =? 0); text := pretty n |}.

(** The payload object of an inbound message.  Only the fields the service
    reads are kept, each of them possibly absent ([undefined]). *)
Record Data := mkData {
  pointsGained : option Observed;
  badgeName : option string;
  streakMilestone : option Observed;
  type : option string;
  message : option string }.

(** The argument a handle passes to its listeners: nothing, a string (the
    reason of a ['disconnect']) or a payload object. *)
Inductive Value :=
| VUndefined
| VString (s : string)
| VObject (data : Data).

Record TransportEvent := mkEvent {
  name : string;
  arg : Value }.

(** The payload of an outbound [socket.emit]. *)
Inductive Field :=
| FString (s : string)
| FNumber (n : Z).

Definition Payload := list (string * Field).

(** ** Transport handles *)

(** The eleven closures [setupEventListeners] registers, by the event they
    are registered for. *)
Inductive Handler :=
| OnConnect
| OnDisconnect
| OnConnectError
| OnLeaderboardUpdate
| OnPointsUpdate
| OnBadgeUnlocked
| OnStreakUpdate
| OnQuizSessionUpdate
| OnCourseEnrollment
| OnNotification
| OnCompetitionAnnouncement.

(** A listener is one of the service's closures or a callback of the
    application, which is opaque and known by an identifier. *)
Inductive Callback :=
| Service (h : Handler)
| User (id : nat).

#[global] Instance Handler_eq_dec : EqDecision Handler.
Proof. solve_decision. Defined.

#[global] Instance Callback_eq_dec : EqDecision Callback.
Proof. solve_decision. Defined.

(** A [Socket] of the transport library: its [connected] flag, whether the
    client closed it with [socket.disconnect()], and its listeners in
    registration order. *)
Record Socket := mkSocket {
  connected : bool;
  closed : bool;
  listeners : list (string * Callback) }.

(** Calls made on the transport library. *)
Inductive TransportCall :=
| Io
| SocketOn (s : nat) (event : string) (cb : Callback)
| SocketOff (s : nat) (event : string) (cb : Callback)
| SocketRemoveAllListeners (s : nat) (event : string)
| SocketEmit (s : nat) (event : string) (data : Payload)
| SocketDisconnect (s : nat).

(** ** Effects on the page *)

Inductive ToastKind := ToastPlain | ToastSuccess | ToastError.

Record ToastOptions := mkOptions {
  duration : option Z;
  icon : option string;
  style : option (string * string) }.

Definition no_options : ToastOptions :=
  {| duration := None; icon := None; style := None |}.

Inductive Effect :=
| DispatchEvent (type : string) (detail : option Value)
| Toast (kind : ToastKind) (text : option string) (options : ToastOptions)
| Invoked (callback : nat) (arg : Value).

(** ** State *)

Record State := mkState {
  (* fields of the WebSocketService instance *)
  socket : option nat;
  reconnectAttempts : Z;
  (* the module variable: [true] once it holds the instance *)
  websocketService : bool;
  (* the environment *)
  window_defined : bool;
  sockets : list Socket;
  timers : list Z;
  calls : list TransportCall;
  effects : list Effect }.

Definition maxReconnectAttempts : Z := 5.
Definition reconnectDelay : Z := 1000.

Definition set_socket (v : option nat) (st : State) : State :=
  mkState v (reconnectAttempts st) (websocketService st) (window_defined st)
          (sockets st) (timers st) (calls st) (effects st).

Definition set_reconnectAttempts (v : Z) (st : State) : State :=
  mkState (socket st) v (websocketService st) (window_defined st)
          (sockets st) (timers st) (calls st) (effects st).

Definition set_websocketService (v : bool) (st : State) : State :=
  mkState (socket st) (reconnectAttempts st) v (window_defined st)
          (sockets st) (timers st) (calls st) (effects st).

Definition set_sockets (v : list Socket) (st : State) : State :=
  mkState (socket st) (reconnectAttempts st) (websocketService st)
          (window_defined st) v (timers st) (calls st) (effects st).

Definition set_timers (v : list Z) (st : State) : State :=
  mkState (socket st) (reconnectAttempts st) (websocketService st)
          (window_defined st) (sockets st) v (calls st) (effects st).

Definition set_calls (v : list TransportCall) (st : State) : State :=
  mkState (socket st) (reconnectAttempts st) (websocketService st)
          (window_defined st) (sockets st) (timers st) v (effects st).

Definition set_effects (v : list Effect) (st : State) : State :=
  mkState (socket st) (reconnectAttempts st) (websocketService st)
          (window_defined st) (sockets st) (timers st) (calls st) v.

(** The page before the module is first used. *)
Definition initial (window : bool) : State :=
  {| socket := None; reconnectAttempts := 0; websocketService := false;
     window_defined := window; sockets := []; timers := []; calls := [];
     effects := [] |}.

(** ** The monad: state, and completion by return or by exception *)

Inductive Completion (A : Type) :=
| Normal (a : A)
| Thrown.

Arguments Normal {A} a.
Arguments Thrown {A}.

Definition M (A : Type) : Type := State -> Completion A * State.

Definition ret {A} (a : A) : M A := fun st => (Normal a, st).

Definition throw {A} : M A := fun st => (Thrown, st).

Definition bind {A B} (m : M A) (k : A -> M B) : M B :=
  fun st =>
    match m st with
    | (Normal a, st') => k a st'
    | (Thrown, st') => (Thrown, st')
    end.

(** [try { m } catch { h }] *)
Definition try_catch {A} (m : M A) (h : M A) : M A :=
  fun st =>
    match m st with
    | (Normal a, st') => (Normal a, st')
    | (Thrown, st') => h st'
    end.

Definition get {A} (f : State -> A) : M A := fun st => (Normal (f st), st).

Definition modify (f : State -> State) : M unit := fun st => (Normal tt, f st).

Definition when (b : bool) (m : M unit) : M unit := if b then m else ret tt.

Declare Scope js_scope.
Delimit Scope js_scope with js.

Notation "'let!' x := m 'in' k" := (bind m (fun x => k))
  (at level 10, x name, m at level 100, k at level 200) : js_scope.
Notation "m >> k" := (bind m (fun _ => k))
  (at level 100, k at level 200, right associativity) : js_scope.

Open Scope js_scope.

(** The state a computation leaves, and how it completed. *)
Definition exec {A} (m : M A) (st : State) : State := snd (m st).

Definition returns {A} (m : M A) (st : State) : bool :=
  match fst (m st) with Normal _ => true | Thrown => false end.

(** ** The environment, as the service calls it *)

Definition log_call (c : TransportCall) : M unit :=
  modify (fun st => set_calls (calls st ++ [c]) st).

Definition log_effect (e : Effect) : M unit :=
  modify (fun st => set_effects (effects st ++ [e]) st).

Definition update_socket (s : nat) (f : Socket -> Socket) : M unit :=
  modify (fun st => set_sockets (alter f s (sockets st)) st).

(** [io(wsUrl, options)]: a fresh handle, not yet connected and without
    listeners, or an exception. *)
Definition io (raises : bool) : M nat :=
  log_call Io >>
  if raises then throw
  else
    let! s := get (fun st => length (sockets st)) in
    modify (fun st => set_sockets (sockets st ++ [mkSocket false false []]) st) >>
    ret s.

Definition socket_on (s : nat) (event : string) (cb : Callback) : M unit :=
  log_call (SocketOn s event cb) >>
  update_socket s (fun h =>
    mkSocket (connected h) (closed h) (listeners h ++ [(event, cb)])).

Definition is_listener (event : string) (cb : Callback)
    (l : string * Callback) : bool :=
  String.eqb (fst l) event && bool_decide (snd l = cb).

(** [socket.off(event, cb)] removes one registration of [cb], the first. *)
Fixpoint remove_first (event : string) (cb : Callback)
    (ls : list (string * Callback)) : list (string * Callback) :=
  match ls with
  | [] => []
  | l :: rest =>
      if is_listener event cb l then rest
      else l :: remove_first event cb rest
  end.

Definition socket_off (s : nat) (event : string) (cb : Callback) : M unit :=
  log_call (SocketOff s event cb) >>
  update_socket s (fun h =>
    mkSocket (connected h) (closed h) (remove_first event cb (listeners h))).

Definition socket_removeAllListeners (s : nat) (event : string) : M unit :=
  log_call (SocketRemoveAllListeners s event) >>
  update_socket s (fun h =>
    mkSocket (connected h) (closed h)
      (List.filter (fun l => negb (String.eqb (fst l) event)) (listeners h))).

(** [socket.emit(event, data)]; the library may refuse the event name. *)
Definition socket_emit (raises : bool) (s : nat) (event : string)
    (data : Payload) : M unit :=
  log_call (SocketEmit s event data) >>
  if raises then throw else ret tt.

Definition socket_disconnect (s : nat) : M unit :=
  log_call (SocketDisconnect s) >>
  update_socket s (fun h => mkSocket false true (listeners h)).

Definition setTimeout (delay : Z) : M unit :=
  modify (fun st => set_timers (timers st ++ [delay]) st).

Definition window_dispatchEvent (type : string) (detail : option Value)
    : M unit :=
  log_effect (DispatchEvent type detail).

Definition toast (text : option string) (options : ToastOptions) : M unit :=
  log_effect (Toast ToastPlain text options).

Definition toast_success (text : option string) (options : ToastOptions)
    : M unit :=
  log_effect (Toast ToastSuccess text options).

Definition toast_error (text : option string) (options : ToastOptions)
    : M unit :=
  log_effect (Toast ToastError text options).

(** [data.f]: a [TypeError] on [undefined], [undefined] on a string. *)
Definition field {A} (f : Data -> option A) (v : Value) : M (option A) :=
  match v with
  | VObject data => ret (f data)
  | VString _ => ret None
  | VUndefined => throw
  end.

(** [v === s] for a string literal [s]. *)
Definition strict_eq (v : Value) (s : string) : bool :=
  match v with
  | VString r => String.eqb r s
  | _ => false
  end.

(** A string field inside a template literal. *)
Definition template_string (s : option string) : string :=
  match s with
  | Some s => s
  | None => "undefined"
  end.

(** ** class WebSocketService *)

Definition handleReconnect : M unit :=
  let! n := get reconnectAttempts in
  if n >=? maxReconnectAttempts then
    toast_error (Some "Connection lost. Please refresh the page.") no_options
  else
    modify (fun st => set_reconnectAttempts (reconnectAttempts st + 1) st) >>
    let! n := get reconnectAttempts in
    let delay := reconnectDelay * 2 ^ (n - 1) in
    setTimeout delay.

(** *** The listeners of [setupEventListeners] *)

Definition on_connect : M unit :=
  modify (set_reconnectAttempts 0) >>
  let! w := get window_defined in
  when w (window_dispatchEvent "websocket-connected" None).

Definition on_disconnect (reason : Value) : M unit :=
  let! w := get window_defined in
  when w (window_dispatchEvent "websocket-disconnected" None) >>
  when (strict_eq reason "io server disconnect") handleReconnect.

Definition on_connect_error : M unit :=
  handleReconnect.

Definition on_leaderboard_update (data : Value) : M unit :=
  let! w := get window_defined in
  when w (window_dispatchEvent "leaderboard-update" (Some data)).

Definition on_points_update (data : Value) : M unit :=
  let! w := get window_defined in
  when w (window_dispatchEvent "points-update" (Some data)) >>
  let! gained := field pointsGained data in
  match gained with
  | Some v =>
      when (positive v)
        (toast_success (Some ("+" +:+ text v +:+ " points earned! 🎉"))
           {| duration := Some 3000; icon := None;
              style := Some ("#10B981", "white") |})
  | None => ret tt
  end.

Definition on_badge_unlocked (data : Value) : M unit :=
  let! w := get window_defined in
  when w (window_dispatchEvent "badge-unlocked" (Some data)) >>
  let! badge := field badgeName data in
  toast_success
    (Some ("🏆 Badge Unlocked: " +:+ template_string badge +:+ "!"))
    {| duration := Some 5000; icon := None;
       style := Some ("#8B5CF6", "white") |}.

Definition on_streak_update (data : Value) : M unit :=
  let! w := get window_defined in
  when w (window_dispatchEvent "streak-update" (Some data)) >>
  let! milestone := field streakMilestone data in
  match milestone with
  | Some v =>
      when (truthy v)
        (toast_success (Some ("🔥 " +:+ text v +:+ " Day Streak!"))
           {| duration := Some 4000; icon := None; style := None |})
  | None => ret tt
  end.

Definition on_quiz_session_update (data : Value) : M unit :=
  let! w := get window_defined in
  when w (window_dispatchEvent "quiz-session-update" (Some data)).

Definition on_course_enrollment (data : Value) : M unit :=
  let! w := get window_defined in
  when w (window_dispatchEvent "course-enrollment" (Some data)).

Definition on_notification (data : Value) : M unit :=
  let! t := field type data in
  let! msg := field message data in
  let case (s : string) :=
    match t with Some t => String.eqb t s | None => false end in
  if case "success" then
    toast_success msg {| duration := Some 4000; icon := None; style := None |}
  else if case "info" then
    toast msg {| duration := Some 4000; icon := None; style := None |}
  else if case "warning" then
    toast msg {| duration := Some 5000; icon := Some "⚠️"; style := None |}
  else if case "error" then
    toast_error msg {| duration := Some 6000; icon := None; style := None |}
  else
    toast msg no_options.

Definition on_competition_announcement (data : Value) : M unit :=
  let! msg := field message data in
  toast msg
    {| duration := Some 8000; icon := Some "🏆";
       style := Some ("linear-gradient(135deg, #667eea 0%, #764ba2 100%)",
                      "white") |}.

Definition service_listeners : list (string * Handler) :=
  [ ("connect", OnConnect);
    ("disconnect", OnDisconnect);
    ("connect_error", OnConnectError);
    ("leaderboard-update", OnLeaderboardUpdate);
    ("points-update", OnPointsUpdate);
    ("badge-unlocked", OnBadgeUnlocked);
    ("streak-update", OnStreakUpdate);
    ("quiz-session-update", OnQuizSessionUpdate);
    ("course-enrollment", OnCourseEnrollment);
    ("notification", OnNotification);
    ("competition-announcement", OnCompetitionAnnouncement) ].

Fixpoint register (s : nat) (ls : list (string * Handler)) : M unit :=
  match ls with
  | [] => ret tt
  | (event, h) :: rest => socket_on s event (Service h) >> register s rest
  end.

Definition setupEventListeners : M unit :=
  let! sock := get socket in
  match sock with
  | None => ret tt
  | Some s => register s service_listeners
  end.

Definition connect (io_raises : bool) : M unit :=
  try_catch
    (let! s := io io_raises in
     modify (set_socket (Some s)) >>
     setupEventListeners)
    handleReconnect.

(** The constructor: the field initialisers, then [this.connect()]. *)
Definition new_WebSocketService (io_raises : bool) : M unit :=
  modify (set_socket None) >>
  modify (set_reconnectAttempts 0) >>
  connect io_raises.

(** *** The public methods *)

(** [if (this.socket) { this.socket.emit(event, data) }] *)
Definition send (emit_raises : bool) (event : string) (data : Payload)
    : M unit :=
  let! sock := get socket in
  match sock with
  | Some s => socket_emit emit_raises s event data
  | None => ret tt
  end.

Definition joinCourse (courseId userId : string) (emit_raises : bool)
    : M unit :=
  send emit_raises "join-course"
    [("courseId", FString courseId); ("userId", FString userId)].

Definition leaveCourse (courseId userId : string) (emit_raises : bool)
    : M unit :=
  send emit_raises "leave-course"
    [("courseId", FString courseId); ("userId", FString userId)].

Definition joinLeaderboard (userId : string) (emit_raises : bool) : M unit :=
  send emit_raises "join-leaderboard" [("userId", FString userId)].

Definition leaveLeaderboard (userId : string) (emit_raises : bool) : M unit :=
  send emit_raises "leave-leaderboard" [("userId", FString userId)].

Definition submitQuizAnswer (data : Payload) (emit_raises : bool) : M unit :=
  send emit_raises "quiz-answer" data.

Definition startQuiz (data : Payload) (emit_raises : bool) : M unit :=
  send emit_raises "start-quiz" data.

Definition completeLesson (data : Payload) (emit_raises : bool) : M unit :=
  send emit_raises "lesson-completed" data.

Definition sendHeartbeat (userId : string) (now : Z) (emit_raises : bool)
    : M unit :=
  send emit_raises "heartbeat"
    [("userId", FString userId); ("timestamp", FNumber now)].

Definition updateActivity (userId activity : string) (now : Z)
    (emit_raises : bool) : M unit :=
  send emit_raises "user-activity"
    [("userId", FString userId); ("activity", FString activity);
     ("timestamp", FNumber now)].

(** [this.socket?.connected || false] *)
Definition isConnected : M bool :=
  let! sock := get socket in
  match sock with
  | Some s =>
      let! h := get (fun st => sockets st !! s) in
      ret (match h with Some h => connected h || false | None => false end)
  | None => ret false
  end.

Definition disconnect : M unit :=
  let! sock := get socket in
  match sock with
  | Some s => socket_disconnect s >> modify (set_socket None)
  | None => ret tt
  end.

Definition emit (event : string) (data : Payload) (emit_raises : bool)
    : M unit :=
  send emit_raises event data.

Definition on (event : string) (callback : nat) : M unit :=
  let! sock := get socket in
  match sock with
  | Some s => socket_on s event (User callback)
  | None => ret tt
  end.

Definition off (event : string) (callback : option nat) : M unit :=
  let! sock := get socket in
  match sock with
  | Some s =>
      match callback with
      | Some cb => socket_off s event (User cb)
      | None => socket_removeAllListeners s event
      end
  | None => ret tt
  end.

(** ** The singleton accessor *)

Inductive Op :=
| JoinCourse (courseId userId : string)
| LeaveCourse (courseId userId : string)
| JoinLeaderboard (userId : string)
| LeaveLeaderboard (userId : string)
| SubmitQuizAnswer (data : Payload)
| StartQuiz (data : Payload)
| CompleteLesson (data : Payload)
| SendHeartbeat (userId : string)
| UpdateActivity (userId activity : string)
| IsConnected
| Disconnect
| Emit (event : string) (data : Payload)
| On (event : string) (callback : nat)
| Off (event : string) (callback : option nat).

(** What the environment answers during one call. *)
Record Env := mkEnv {
  io_raises : bool;
  emit_raises : bool;
  now : Z }.

Inductive Result :=
| RUndefined
| RBoolean (b : bool).

(** What [getWebSocketService] returns: the object literal of the
    server-side branch, or the instance. *)
Inductive ServiceRef :=
| MockService
| Instance.

Definition getWebSocketService (env : Env) : M ServiceRef :=
  let! w := get window_defined in
  if negb w then ret MockService
  else
    let! created := get websocketService in
    when (negb created)
      (new_WebSocketService (io_raises env) >>
       modify (set_websocketService true)) >>
    ret Instance.

Definition useWebSocket (env : Env) : M ServiceRef :=
  getWebSocketService env.

Definition undefined (m : M unit) : M Result :=
  m >> ret RUndefined.

(** A method of the instance. *)
Definition method (op : Op) (env : Env) : M Result :=
  match op with
  | JoinCourse c u => undefined (joinCourse c u (emit_raises env))
  | LeaveCourse c u => undefined (leaveCourse c u (emit_raises env))
  | JoinLeaderboard u => undefined (joinLeaderboard u (emit_raises env))
  | LeaveLeaderboard u => undefined (leaveLeaderboard u (emit_raises env))
  | SubmitQuizAnswer d => undefined (submitQuizAnswer d (emit_raises env))
  | StartQuiz d => undefined (startQuiz d (emit_raises env))
  | CompleteLesson d => undefined (completeLesson d (emit_raises env))
  | SendHeartbeat u => undefined (sendHeartbeat u (now env) (emit_raises env))
  | UpdateActivity u a =>
      undefined (updateActivity u a (now env) (emit_raises env))
  | IsConnected => let! b := isConnected in ret (RBoolean b)
  | Disconnect => undefined disconnect
  | Emit e d => undefined (emit e d (emit_raises env))
  | On e cb => undefined (on e cb)
  | Off e cb => undefined (off e cb)
  end.

(** A member of the object literal returned on the server side. *)
Definition mock (op : Op) : M Result :=
  match op with
  | IsConnected => ret (RBoolean false)
  | _ => ret RUndefined
  end.

Definition invoke (svc : ServiceRef) (op : Op) (env : Env) : M Result :=
  match svc with
  | MockService => mock op
  | Instance => method op env
  end.

(** [getWebSocketService().op(...)] *)
Definition call (op : Op) (env : Env) : M Result :=
  let! svc := getWebSocketService env in
  invoke svc op env.

(** ** Events of the environment *)

Definition run_handler (h : Handler) (a : Value) : M unit :=
  match h with
  | OnConnect => on_connect
  | OnDisconnect => on_disconnect a
  | OnConnectError => on_connect_error
  | OnLeaderboardUpdate => on_leaderboard_update a
  | OnPointsUpdate => on_points_update a
  | OnBadgeUnlocked => on_badge_unlocked a
  | OnStreakUpdate => on_streak_update a
  | OnQuizSessionUpdate => on_quiz_session_update a
  | OnCourseEnrollment => on_course_enrollment a
  | OnNotification => on_notification a
  | OnCompetitionAnnouncement => on_competition_announcement a
  end.

(** A listener is called.  What a callback of the application does is its
    own; whether it raises is the environment's, given by [raises]. *)
Definition run_callback (raises : nat -> bool) (cb : Callback) (a : Value)
    : M unit :=
  match cb with
  | Service h => run_handler h a
  | User id => log_effect (Invoked id a) >> when (raises id) throw
  end.

(** The emitter of a handle: the listeners are called in order, and an
    exception of one of them, which nothing catches, ends the round. *)
Fixpoint run_callbacks (raises : nat -> bool) (cbs : list Callback)
    (a : Value) : M unit :=
  match cbs with
  | [] => ret tt
  | cb :: rest => run_callback raises cb a >> run_callbacks raises rest a
  end.

Definition subscribers (event : string) (h : Socket) : list Callback :=
  List.map snd (List.filter (fun l => String.eqb (fst l) event) (listeners h)).

(** Handle [s] emits [ev]: the transport keeps its [connected] flag, then
    calls the listeners registered on that handle for the event. *)
Definition receive (s : nat) (ev : TransportEvent) (raises : nat -> bool)
    : M unit :=
  let! h := get (fun st => sockets st !! s) in
  match h with
  | None => ret tt
  | Some h =>
      when (String.eqb (name ev) "connect")
        (update_socket s (fun h => mkSocket true (closed h) (listeners h))) >>
      when (String.eqb (name ev) "disconnect")
        (update_socket s (fun h => mkSocket false (closed h) (listeners h))) >>
      run_callbacks raises (subscribers (name ev) h) (arg ev)
  end.

(** The [i]-th pending timer fires: the closure of [handleReconnect]. *)
Definition timeout (i : nat) (io_raises : bool) : M unit :=
  let! ts := get timers in
  match ts !! i with
  | None => ret tt
  | Some _ => modify (set_timers (delete i ts)) >> connect io_raises
  end.

Inductive Step :=
| Call (op : Op) (env : Env)
| Receive (s : nat) (ev : TransportEvent) (raises : nat -> bool)
| Timeout (i : nat) (io_raises : bool).

Definition step (st : State) (e : Step) : State :=
  match e with
  | Call op env => exec (call op env) st
  | Receive s ev raises => exec (receive s ev raises) st
  | Timeout i r => exec (timeout i r) st
  end.

Definition run (window : bool) (es : list Step) : State :=
  fold_left step es (initial window).

Definition reachable (st : State) : Prop :=
  exists window es, st = run window es.

(** ** Vocabulary of the statements *)

(** An environment in which no call raises. *)
Definition calm : Env :=
  {| io_raises := false; emit_raises := false; now := 0 |}.

(** The first access to the service, which constructs the instance. *)
Definition first_access : Step := Call IsConnected calm.

(** No callback of the application raises. *)
Definition silent : nat -> bool := fun _ => false.


Definition failed (s : nat) : Step :=
  Receive s (mkEvent "connect_error" VUndefined) silent.


Definition inbound (s : nat) (topic : string) (data : Data) : Step :=
  Receive s (mkEvent topic (VObject data)) silent.

Definition steps (st : State) (es : list Step) : State :=
  fold_left step es st.

(** The counter has reached its bound: [handleReconnect] takes its first
    branch. *)
Definition given_up (st : State) : Prop :=
  maxReconnectAttempts <= reconnectAttempts st.

(** The event each closure of [setupEventListeners] is registered for. *)
Definition handler_event (h : Handler) : string :=
  match h with
  | OnConnect => "connect"
  | OnDisconnect => "disconnect"
  | OnConnectError => "connect_error"
  | OnLeaderboardUpdate => "leaderboard-update"
  | OnPointsUpdate => "points-update"
  | OnBadgeUnlocked => "badge-unlocked"
  | OnStreakUpdate => "streak-update"
  | OnQuizSessionUpdate => "quiz-session-update"
  | OnCourseEnrollment => "course-enrollment"
  | OnNotification => "notification"
  | OnCompetitionAnnouncement => "competition-announcement"
  end.

(** A closure of the service sits under its own event only. *)
Definition wired (l : string * Callback) : Prop :=
  match snd l with
  | Service h => fst l = handler_event h
  | User _ => True
  end.

Definition well_wired (st : State) : Prop :=
  Forall (fun h => Forall wired (listeners h)) (sockets st).

Definition bounded (st : State) : Prop :=
  0 <= reconnectAttempts st <= maxReconnectAttempts.

(** [m] keeps [P], however it completes. *)
Definition preserves (P : State -> Prop) {A} (m : M A) : Prop :=
  forall st, P st -> P (exec m st).

(** What holds of every state the page can be in. *)
Definition invariant (st : State) : Prop :=
  bounded st /\ well_wired st.

(** The listeners of a handle that [setupEventListeners] has just set up,
    and the calls that put them there. *)
Definition fresh_listeners : list (string * Callback) :=
  List.map (fun l => (fst l, Service (snd l))) service_listeners.

Definition registrations (s : nat) : list TransportCall :=
  List.map (fun l => SocketOn s (fst l) (Service (snd l))) service_listeners.

(** The state [connect] leaves when [io] returns a handle. *)
Definition connected_to_fresh_handle (st : State) : State :=
  let s := length (sockets st) in
  {| socket := Some s;
     reconnectAttempts := reconnectAttempts st;
     websocketService := websocketService st;
     window_defined := window_defined st;
     sockets := sockets st ++ [mkSocket false false fresh_listeners];
     timers := timers st;
     calls := calls st ++ Io :: registrations s;
     effects := effects st |}.

(** A handle the client has not closed and that still has listeners. *)
Definition live (h : Socket) : bool :=
  negb (closed h) && negb (bool_decide (listeners h = [])).


Definition gave_up_toast : Effect :=
  Toast ToastError (Some "Connection lost. Please refresh the page.")
    no_options.





(** The instance exists, no retry is pending and [n] handles were opened. *)
Definition dormant (n : nat) (st : State) : Prop :=
  websocketService st = true /\ timers st = [] /\ length (sockets st) = n.

Definition quiet (exhausted : bool) (n : nat) (st : State) : Prop :=
  dormant n st /\ (if exhausted then given_up st else True).




(** Six connection attempts in a row that fail: the first one and the five
    retries. *)
Definition exhausting : list Step :=
  [ first_access; failed 0;
    Timeout 0 false; failed 1;
    Timeout 0 false; failed 2;
    Timeout 0 false; failed 3;
    Timeout 0 false; failed 4;
    Timeout 0 false; failed 5 ].

Definition fifty_points : Data :=
  {| pointsGained := Some (integer 50); badgeName := None;
     streakMilestone := None;
     type := None; message := None |}.


Definition is_emit (c : TransportCall) : bool :=
  match c with SocketEmit _ _ _ => true | _ => false end.


(** What a method passes to [socket.emit]: the nine commands, with the
    event and the fields of the interface table, and [emit] itself. *)
Definition sends (op : Op) (env : Env) : option (string * Payload) :=
  match op with
  | JoinCourse c u =>
      Some ("join-course", [("courseId", FString c); ("userId", FString u)])
  | LeaveCourse c u =>
      Some ("leave-course", [("courseId", FString c); ("userId", FString u)])
  | JoinLeaderboard u => Some ("join-leaderboard", [("userId", FString u)])
  | LeaveLeaderboard u => Some ("leave-leaderboard", [("userId", FString u)])
  | SubmitQuizAnswer d => Some ("quiz-answer", d)
  | StartQuiz d => Some ("start-quiz", d)
  | CompleteLesson d => Some ("lesson-completed", d)
  | SendHeartbeat u =>
      Some ("heartbeat",
            [("userId", FString u); ("timestamp", FNumber (now env))])
  | UpdateActivity u a =>
      Some ("user-activity",
            [("userId", FString u); ("activity", FString a);
             ("timestamp", FNumber (now env))])
  | Emit e d => Some (e, d)
  | IsConnected | Disconnect | On _ _ | Off _ _ => None
  end.

(** The value of an operation that does nothing. *)
Definition default_result (op : Op) : Result :=
  match op with
  | IsConnected => RBoolean false
  | _ => RUndefined
  end.


(** The five topics that end in a toast, with their listeners. *)
Definition reserved : list (string * Handler) :=
  [ ("points-update", OnPointsUpdate);
    ("badge-unlocked", OnBadgeUnlocked);
    ("streak-update", OnStreakUpdate);
    ("notification", OnNotification);
    ("competition-announcement", OnCompetitionAnnouncement) ].

(** The listeners that pass the message on as a window event. *)
Definition dispatches (h : Handler) : bool :=
  match h with
  | OnNotification | OnCompetitionAnnouncement => false
  | _ => true
  end.

Definition points_toast (amount : string) : Effect :=
  Toast ToastSuccess (Some ("+" +:+ amount +:+ " points earned! 🎉"))
    {| duration := Some 3000; icon := None;
       style := Some ("#10B981", "white") |}.

Definition timed (d : Z) : ToastOptions :=
  {| duration := Some d; icon := None; style := None |}.

Definition has_type (d : Data) (s : string) : bool :=
  match type d with
  | Some t => String.eqb t s
  | None => false
  end.

(** The toasts of a message, by topic: the rules of the notification
    emitter. *)
Definition intent (h : Handler) (d : Data) : list Effect :=
  match h with
  | OnPointsUpdate =>
      match pointsGained d with
      | Some v => if positive v then [points_toast (text v)] else []
      | None => []
      end
  | OnBadgeUnlocked =>
      [Toast ToastSuccess
         (Some ("🏆 Badge Unlocked: " +:+ template_string (badgeName d) +:+ "!"))
         {| duration := Some 5000; icon := None;
            style := Some ("#8B5CF6", "white") |}]
  | OnStreakUpdate =>
      match streakMilestone d with
      | Some v =>
          if truthy v
          then [Toast ToastSuccess (Some ("🔥 " +:+ text v +:+ " Day Streak!"))
                  (timed 4000)]
          else []
      | None => []
      end
  | OnNotification =>
      if has_type d "success" then
        [Toast ToastSuccess (message d) (timed 4000)]
      else if has_type d "info" then
        [Toast ToastPlain (message d) (timed 4000)]
      else if has_type d "warning" then
        [Toast ToastPlain (message d)
           {| duration := Some 5000; icon := Some "⚠️"; style := None |}]
      else if has_type d "error" then
        [Toast ToastError (message d) (timed 6000)]
      else
        [Toast ToastPlain (message d) no_options]
  | OnCompetitionAnnouncement =>
      [Toast ToastPlain (message d)
         {| duration := Some 8000; icon := Some "🏆";
            style :=
              Some ("linear-gradient(135deg, #667eea 0%, #764ba2 100%)",
                    "white") |}]
  | _ => []
  end.

Definition invocations (ids : list nat) (a : Value) : list Effect :=
  List.map (fun id => Invoked id a) ids.

(** The kind of page: with a [window] or without. *)
Definition in_context (w : bool) (st : State) : Prop :=
  window_defined st = w.

Definition info_notification : Data :=
  {| pointsGained := None; badgeName := None; streakMilestone := None;
     type := Some "info"; message := Some "Maintenance at noon" |}.

Definition join_course_payload : Payload :=
  [("courseId", FString "c1"); ("userId", FString "u1")].


(** ** Vocabulary of the further properties *)

Definition is_service (cb : Callback) : bool :=
  match cb with
  | Service _ => true
  | User _ => false
  end.

(** How many closures of the service a handle has under an event. *)
Definition service_count (event : string) (ls : list (string * Callback))
    : nat :=
  length
    (List.filter (fun l => String.eqb (fst l) event && is_service (snd l)) ls).

Definition singly_wired (st : State) : Prop :=
  Forall (fun h => forall event, (service_count event (listeners h) <= 1)%nat)
    (sockets st).

(** The socket of the service, when there is one, is the handle opened
    last. *)
Definition newest (st : State) : Prop :=
  forall s, socket st = Some s -> S s = length (sockets st).

(** The delays [handleReconnect] can ask for. *)
Definition backoff_range (d : Z) : Prop :=
  reconnectDelay <= d <= reconnectDelay * 2 ^ (maxReconnectAttempts - 1).

Definition timers_in_range (st : State) : Prop :=
  bounded st /\ Forall backoff_range (timers st).

Definition is_toast (e : Effect) : bool :=
  match e with
  | Toast _ _ _ => true
  | _ => false
  end.

Definition is_dispatch (e : Effect) : bool :=
  match e with
  | DispatchEvent _ _ => true
  | _ => false
  end.

Definition count (p : Effect -> bool) (es : list Effect) : nat :=
  length (List.filter p es).

(** What the public methods and the listeners do to the listeners of a
    handle: nothing, one more callback of the application, one registration
    less, or some registrations less. *)
Inductive edited : list (string * Callback) -> list (string * Callback) -> Prop :=
| edited_same ls : edited ls ls
| edited_on ls event id : edited ls (ls ++ [(event, User id)])
| edited_off ls event cb : edited ls (remove_first event cb ls)
| edited_filter ls keep : edited ls (List.filter keep ls).

(** The three topics that are passed on as a window event and nothing
    else. *)
Definition relayed : list (string * Handler) :=
  [ ("leaderboard-update", OnLeaderboardUpdate);
    ("quiz-session-update", OnQuizSessionUpdate);
    ("course-enrollment", OnCourseEnrollment) ].

(** ** Vocabulary of a round of listeners *)

Definition no_fields : Data :=
  {| pointsGained := None; badgeName := None; streakMilestone := None;
     type := None; message := None |}.

(** The fields a listener finds in its argument: those of the object, none
    in a string, and a [TypeError] when there is no argument. *)
Definition fields (a : Value) : option Data :=
  match a with
  | VObject d => Some d
  | VString _ => Some no_fields
  | VUndefined => None
  end.

(** The callbacks of the application among the listeners. *)
Fixpoint users (cbs : list Callback) : list nat :=
  match cbs with
  | [] => []
  | Service _ :: rest => users rest
  | User id :: rest => id :: users rest
  end.

(** The callbacks that are called in a round: each in its turn, up to and
    including the first that raises. *)
Fixpoint called (raises : nat -> bool) (ids : list nat) : list nat :=
  match ids with
  | [] => []
  | id :: rest => id :: if raises id then [] else called raises rest
  end.

Definition none_raises (raises : nat -> bool) (ids : list nat) : bool :=
  forallb (fun id => negb (raises id)) ids.

(** The handle still has the listener of the service under the event. *)
Definition carries (event : string) (h : Socket) : bool :=
  existsb is_service (subscribers event h).

(** Among the listeners of an event the one of the service, if it is
    there, comes first. *)
Definition service_first (cbs : list Callback) : Prop :=
  Forall (fun cb => is_service cb = false) (tail cbs).

Definition orderly (st : State) : Prop :=
  Forall (fun h => forall event, service_first (subscribers event h))
    (sockets st).

(** * Properties *)

(** ** [handleReconnect] *)

Lemma handleReconnect_below (st : State) :
  reconnectAttempts st < maxReconnectAttempts ->
  handleReconnect st =
    (Normal tt,
     set_timers (timers st ++ [reconnectDelay * 2 ^ reconnectAttempts st])
       (set_reconnectAttempts (reconnectAttempts st + 1) st)).
Proof.
  intros Hlt. unfold handleReconnect, bind, get.
  destruct (Z.geb_spec (reconnectAttempts st) maxReconnectAttempts); [lia|].
  cbn. now rewrite Z.add_simpl_r.
Qed.

Lemma handleReconnect_exhausted (st : State) :
  given_up st ->
  handleReconnect st =
    (Normal tt,
     set_effects
       (effects st ++
        [Toast ToastError (Some "Connection lost. Please refresh the page.")
           no_options]) st).
Proof.
  unfold given_up. intros Hge. unfold handleReconnect, bind, get.
  destruct (Z.geb_spec (reconnectAttempts st) maxReconnectAttempts); [|lia].
  reflexivity.
Qed.



(** ** Invariants of the monadic code *)

Section Preservation.

Variable P : State -> Prop.

Lemma preserves_ret {A} (a : A) : preserves P (ret a).
Proof. intros st H. exact H. Qed.

Lemma preserves_throw {A} : preserves P (@throw A).
Proof. intros st H. exact H. Qed.

Lemma preserves_get {A} (f : State -> A) : preserves P (get f).
Proof. intros st H. exact H. Qed.

Lemma preserves_modify (f : State -> State) :
  (forall st, P st -> P (f st)) -> preserves P (modify f).
Proof. intros Hf st H. apply Hf, H. Qed.

Lemma preserves_bind {A B} (m : M A) (k : A -> M B) :
  preserves P m -> (forall a, preserves P (k a)) -> preserves P (bind m k).
Proof.
  intros Hm Hk st H. specialize (Hm st H). unfold exec, bind in *.
  destruct (m st) as [[a|] st']; cbn in *; [apply Hk, Hm | exact Hm].
Qed.

Lemma preserves_try_catch {A} (m h : M A) :
  preserves P m -> preserves P h -> preserves P (try_catch m h).
Proof.
  intros Hm Hh st H. specialize (Hm st H). unfold exec, try_catch in *.
  destruct (m st) as [[a|] st']; cbn in *; [exact Hm | apply Hh, Hm].
Qed.

Lemma preserves_when (b : bool) (m : M unit) :
  preserves P m -> preserves P (when b m).
Proof. intros Hm. destruct b; [exact Hm | apply preserves_ret]. Qed.

End Preservation.

(** Splits a computation into its primitive steps. *)
Ltac preserve_step :=
  match goal with
  | |- preserves _ (ret _) => apply preserves_ret
  | |- preserves _ throw => apply preserves_throw
  | |- preserves _ (get _) => apply preserves_get
  | |- preserves _ (when _ _) => apply preserves_when
  | |- preserves _ (try_catch _ _) => apply preserves_try_catch
  | |- preserves _ (bind _ _) => apply preserves_bind; [ | intros ? ]
  | |- preserves _ (match ?x with _ => _ end) => destruct x
  end.

Ltac preserve := repeat preserve_step.

Create HintDb inv.

Lemma invariant_frame (f : State -> State) :
  (forall st, reconnectAttempts (f st) = reconnectAttempts st) ->
  (forall st, sockets (f st) = sockets st) ->
  preserves invariant (modify f).
Proof.
  intros Hn Hs. apply preserves_modify. intros st [Hb Hw].
  unfold invariant, bounded, well_wired. now rewrite Hn, Hs.
Qed.

Lemma invariant_log_call (c : TransportCall) : preserves invariant (log_call c).
Proof. now apply invariant_frame. Qed.

Lemma invariant_log_effect (e : Effect) : preserves invariant (log_effect e).
Proof. now apply invariant_frame. Qed.

Lemma invariant_setTimeout (d : Z) : preserves invariant (setTimeout d).
Proof. now apply invariant_frame. Qed.

Lemma invariant_set_socket (v : option nat) :
  preserves invariant (modify (set_socket v)).
Proof. now apply invariant_frame. Qed.

Lemma invariant_set_timers (v : list Z) :
  preserves invariant (modify (set_timers v)).
Proof. now apply invariant_frame. Qed.

Lemma invariant_set_websocketService (v : bool) :
  preserves invariant (modify (set_websocketService v)).
Proof. now apply invariant_frame. Qed.

Lemma invariant_reset : preserves invariant (modify (set_reconnectAttempts 0)).
Proof.
  apply preserves_modify. intros st [Hb Hw]. split; [|exact Hw].
  unfold bounded, maxReconnectAttempts. cbn. lia.
Qed.

Lemma invariant_update_socket (s : nat) (f : Socket -> Socket) :
  (forall h, Forall wired (listeners h) -> Forall wired (listeners (f h))) ->
  preserves invariant (update_socket s f).
Proof.
  intros Hf. apply preserves_modify. intros st [Hb Hw]. split; [exact Hb|].
  unfold well_wired in *. cbn. apply Forall_alter; [exact Hw|].
  intros h _. apply Hf.
Qed.

#[global] Hint Resolve invariant_log_call invariant_log_effect
  invariant_setTimeout invariant_set_socket invariant_set_timers
  invariant_set_websocketService invariant_reset : inv.

Lemma wired_remove_first (event : string) (cb : Callback)
    (ls : list (string * Callback)) :
  Forall wired ls -> Forall wired (remove_first event cb ls).
Proof.
  induction 1 as [|l ls Hl Hls IH]; cbn; [constructor|].
  destruct (is_listener event cb l); [exact Hls | now constructor].
Qed.

Lemma wired_filter (keep : string * Callback -> bool)
    (ls : list (string * Callback)) :
  Forall wired ls -> Forall wired (List.filter keep ls).
Proof.
  induction 1 as [|l ls Hl Hls IH]; cbn; [constructor|].
  destruct (keep l); [now constructor | exact IH].
Qed.

Lemma invariant_io (raises : bool) : preserves invariant (io raises).
Proof.
  unfold io. preserve; auto with inv.
  apply preserves_modify. intros st [Hb Hw]. split; [exact Hb|].
  unfold well_wired in *. cbn. apply Forall_app. split; [exact Hw|].
  repeat constructor.
Qed.

Lemma invariant_socket_on (s : nat) (event : string) (cb : Callback) :
  wired (event, cb) -> preserves invariant (socket_on s event cb).
Proof.
  intros Hcb. unfold socket_on. preserve; auto with inv.
  apply invariant_update_socket. intros h Hh. cbn.
  apply Forall_app. split; [exact Hh | now repeat constructor].
Qed.

Lemma invariant_socket_off (s : nat) (event : string) (cb : Callback) :
  preserves invariant (socket_off s event cb).
Proof.
  unfold socket_off. preserve; auto with inv.
  apply invariant_update_socket. intros h. apply wired_remove_first.
Qed.

Lemma invariant_socket_removeAllListeners (s : nat) (event : string) :
  preserves invariant (socket_removeAllListeners s event).
Proof.
  unfold socket_removeAllListeners. preserve; auto with inv.
  apply invariant_update_socket. intros h. apply wired_filter.
Qed.

Lemma invariant_socket_emit (raises : bool) (s : nat) (event : string)
    (data : Payload) :
  preserves invariant (socket_emit raises s event data).
Proof. unfold socket_emit. preserve; auto with inv. Qed.

Lemma invariant_socket_disconnect (s : nat) :
  preserves invariant (socket_disconnect s).
Proof.
  unfold socket_disconnect. preserve; auto with inv.
  now apply invariant_update_socket.
Qed.

Lemma invariant_handleReconnect : preserves invariant handleReconnect.
Proof.
  intros st [Hb Hw]. unfold exec.
  destruct (Z.lt_ge_cases (reconnectAttempts st) maxReconnectAttempts).
  - rewrite handleReconnect_below by assumption. split; [|exact Hw].
    unfold bounded in *. cbn. lia.
  - rewrite handleReconnect_exhausted by assumption. now split.
Qed.

#[global] Hint Resolve invariant_io invariant_socket_off
  invariant_socket_removeAllListeners invariant_socket_emit
  invariant_socket_disconnect invariant_handleReconnect : inv.

Lemma invariant_register (s : nat) (ls : list (string * Handler)) :
  Forall (fun l => fst l = handler_event (snd l)) ls ->
  preserves invariant (register s ls).
Proof.
  induction 1 as [|[event h] ls Hl Hls IH]; cbn; [apply preserves_ret|].
  apply preserves_bind; [|intros _; exact IH].
  apply invariant_socket_on. exact Hl.
Qed.

Lemma invariant_setupEventListeners : preserves invariant setupEventListeners.
Proof.
  unfold setupEventListeners. preserve.
  apply invariant_register. unfold service_listeners.
  repeat constructor.
Qed.

#[global] Hint Resolve invariant_setupEventListeners : inv.

Lemma invariant_connect (raises : bool) : preserves invariant (connect raises).
Proof. unfold connect. preserve; auto with inv. Qed.

#[global] Hint Resolve invariant_connect : inv.

Lemma invariant_run_handler (h : Handler) (a : Value) :
  preserves invariant (run_handler h a).
Proof.
  destruct h; cbn;
    unfold on_connect, on_disconnect, on_connect_error, on_leaderboard_update,
      on_points_update, on_badge_unlocked, on_streak_update,
      on_quiz_session_update, on_course_enrollment, on_notification,
      on_competition_announcement, field, window_dispatchEvent, toast,
      toast_success, toast_error;
    preserve; auto with inv.
Qed.

Lemma invariant_run_callbacks (raises : nat -> bool) (cbs : list Callback)
    (a : Value) :
  preserves invariant (run_callbacks raises cbs a).
Proof.
  induction cbs as [|cb cbs IH]; cbn; [apply preserves_ret|].
  apply preserves_bind; [|intros _; exact IH].
  destruct cb; cbn; [apply invariant_run_handler |].
  preserve; auto with inv.
Qed.

Lemma invariant_receive (s : nat) (ev : TransportEvent)
    (raises : nat -> bool) :
  preserves invariant (receive s ev raises).
Proof.
  unfold receive. preserve; auto using invariant_run_callbacks with inv;
    now apply invariant_update_socket.
Qed.

Lemma invariant_timeout (i : nat) (raises : bool) :
  preserves invariant (timeout i raises).
Proof. unfold timeout. preserve; auto with inv. Qed.

Lemma invariant_method (op : Op) (env : Env) :
  preserves invariant (method op env).
Proof.
  destruct op; cbn;
    unfold undefined, joinCourse, leaveCourse, joinLeaderboard,
      leaveLeaderboard, submitQuizAnswer, startQuiz, completeLesson,
      sendHeartbeat, updateActivity, isConnected, disconnect, emit, on, off,
      send;
    preserve; auto with inv.
  now apply invariant_socket_on.
Qed.

Lemma invariant_call (op : Op) (env : Env) : preserves invariant (call op env).
Proof.
  unfold call, getWebSocketService, new_WebSocketService, invoke.
  preserve; auto using invariant_method with inv.
  destruct op; apply preserves_ret.
Qed.

Lemma invariant_step (st : State) (e : Step) :
  invariant st -> invariant (step st e).
Proof.
  destruct e; cbn.
  - apply invariant_call.
  - apply invariant_receive.
  - apply invariant_timeout.
Qed.

Lemma invariant_steps (es : list Step) (st : State) :
  invariant st -> invariant (steps st es).
Proof.
  revert st. induction es as [|e es IH]; intros st H; cbn; [exact H|].
  apply IH, invariant_step, H.
Qed.

Lemma invariant_initial (window : bool) : invariant (initial window).
Proof.
  split; [unfold bounded, maxReconnectAttempts; cbn; lia | constructor].
Qed.

Lemma reachable_invariant (st : State) : reachable st -> invariant st.
Proof.
  intros (window & es & ->). apply invariant_steps, invariant_initial.
Qed.

(** ** [connect] *)

Lemma alter_last {A} (f : A -> A) (l : list A) (x : A) :
  alter f (length l) (l ++ [x]) = l ++ [f x].
Proof.
  replace (length l) with (length l + 0)%nat by lia.
  now rewrite alter_app_r.
Qed.

Lemma register_last (ls : list (string * Handler)) (st : State)
    (rest : list Socket) (c d : bool) (l0 : list (string * Callback)) :
  sockets st = rest ++ [mkSocket c d l0] ->
  register (length rest) ls st =
    (Normal tt,
     set_sockets
       (rest ++
        [mkSocket c d
           (l0 ++ List.map (fun l => (fst l, Service (snd l))) ls)])
       (set_calls
          (calls st ++
           List.map (fun l => SocketOn (length rest) (fst l) (Service (snd l)))
             ls) st)).
Proof.
  revert st l0. induction ls as [|[event h] ls IH]; intros st l0 Hst.
  - cbn. rewrite !app_nil_r, <- Hst. now destruct st.
  - cbn [register]. unfold bind at 1.
    unfold socket_on, log_call, update_socket, bind, modify.
    cbn [fst snd sockets set_calls set_sockets].
    rewrite Hst, alter_last. cbn [connected closed listeners].
    erewrite IH by reflexivity.
    unfold set_sockets, set_calls. cbn. now rewrite <- !app_assoc.
Qed.

Lemma connect_opens (st : State) :
  connect false st = (Normal tt, connected_to_fresh_handle st).
Proof.
  unfold connect, try_catch, io, setupEventListeners, log_call, modify, get,
    bind, ret.
  cbn [fst snd socket set_socket set_sockets set_calls sockets].
  erewrite register_last by reflexivity.
  unfold connected_to_fresh_handle, set_sockets, set_calls, registrations,
    fresh_listeners.
  cbn. now rewrite <- app_assoc.
Qed.

Lemma connect_raises (st : State) :
  connect true st = handleReconnect (set_calls (calls st ++ [Io]) st).
Proof. reflexivity. Qed.

(** ** Quiet states: nothing pending, nothing scheduled *)

Lemma quiet_frame (g : bool) (n : nat) (f : State -> State) :
  (forall st, websocketService (f st) = websocketService st) ->
  (forall st, timers (f st) = timers st) ->
  (forall st, length (sockets (f st)) = length (sockets st)) ->
  (forall st, reconnectAttempts (f st) = reconnectAttempts st) ->
  preserves (quiet g n) (modify f).
Proof.
  intros Hw Ht Hs Hn. apply preserves_modify.
  intros st [(Hc & Hti & Hl) Hg]. unfold quiet, dormant, given_up in *.
  now rewrite Hw, Ht, Hs, Hn.
Qed.

Lemma quiet_log_call (g : bool) (n : nat) (c : TransportCall) :
  preserves (quiet g n) (log_call c).
Proof. now apply quiet_frame. Qed.

Lemma quiet_log_effect (g : bool) (n : nat) (e : Effect) :
  preserves (quiet g n) (log_effect e).
Proof. now apply quiet_frame. Qed.

Lemma quiet_set_socket (g : bool) (n : nat) (v : option nat) :
  preserves (quiet g n) (modify (set_socket v)).
Proof. now apply quiet_frame. Qed.

Lemma quiet_update_socket (g : bool) (n : nat) (s : nat)
    (f : Socket -> Socket) :
  preserves (quiet g n) (update_socket s f).
Proof.
  apply quiet_frame; try reflexivity.
  intros st. cbn. apply length_alter.
Qed.

Lemma quiet_reset (n : nat) :
  preserves (quiet false n) (modify (set_reconnectAttempts 0)).
Proof. apply preserves_modify. intros st H. exact H. Qed.

Lemma quiet_handleReconnect (n : nat) :
  preserves (quiet true n) handleReconnect.
Proof.
  intros st [Hd Hg]. unfold exec.
  rewrite handleReconnect_exhausted by exact Hg. now split.
Qed.

Create HintDb quiet.

#[global] Hint Resolve quiet_log_call quiet_log_effect quiet_set_socket
  quiet_update_socket quiet_reset quiet_handleReconnect : quiet.




Lemma subscribers_wired (event : string) (h : Socket) :
  Forall wired (listeners h) ->
  Forall (fun cb => match cb with
                    | Service hd => handler_event hd = event
                    | User _ => True
                    end) (subscribers event h).
Proof.
  unfold subscribers. induction 1 as [|[e cb] ls Hl Hls IH]; cbn;
    [constructor|].
  destruct (String.eqb_spec e event) as [->|]; cbn; [|exact IH].
  constructor; [|exact IH].
  destruct cb; [|exact I]. symmetry. exact Hl.
Qed.







(** ** Retries that fail *)



Lemma timeout_idle (i : nat) (r : bool) (st : State) :
  timers st = [] -> timeout i r st = (Normal tt, st).
Proof.
  intros Ht. unfold timeout, bind, get. now rewrite Ht.
Qed.








(** ** The claims on reconnection *)

(** C5. When [handleReconnect] starts attempt number [a], for [a] from 1 to
    [maxReconnectAttempts], the counter becomes [a] and the retry is scheduled
    after [reconnectDelay * 2 ^ (a - 1)]; a later attempt [b] never gets a
    shorter delay than an earlier attempt [a]. *)
Theorem backoff_delay_exponential (a b : Z) (sa sb : State) :
  1 <= a <= b ->
  b <= maxReconnectAttempts ->
  reconnectAttempts sa = a - 1 ->
  reconnectAttempts sb = b - 1 ->
  (reconnectAttempts (exec handleReconnect sa) = a /\
   timers (exec handleReconnect sa) =
     timers sa ++ [reconnectDelay * 2 ^ (a - 1)]) /\
  (reconnectAttempts (exec handleReconnect sb) = b /\
   timers (exec handleReconnect sb) =
     timers sb ++ [reconnectDelay * 2 ^ (b - 1)]) /\
  reconnectDelay * 2 ^ (a - 1) <= reconnectDelay * 2 ^ (b - 1).
Proof.
  intros Hab Hb Ha Hsb. unfold exec.
  rewrite !handleReconnect_below by lia. cbn.
  rewrite Ha, Hsb. repeat split; try lia.
  apply Z.mul_le_mono_nonneg_l; [unfold reconnectDelay; lia|].
  apply Z.pow_le_mono_r; lia.
Qed.

Lemma backoff_delay_exponential_witness :
  let sa := initial true in
  let sb := set_reconnectAttempts 1 (initial true) in
  (1 <= 1 <= 2 /\ 2 <= maxReconnectAttempts /\
   reconnectAttempts sa = 1 - 1 /\ reconnectAttempts sb = 2 - 1) /\
  (reconnectAttempts (exec handleReconnect sa) = 1 /\
   timers (exec handleReconnect sa) = [1000]) /\
  (reconnectAttempts (exec handleReconnect sb) = 2 /\
   timers (exec handleReconnect sb) = [2000]) /\
  1000 <= 2000.
Proof.
  intros sa sb.
  assert (H1 : 1 <= 1 <= 2) by (split; discriminate).
  assert (H2 : 2 <= maxReconnectAttempts) by discriminate.
  assert (H3 : reconnectAttempts sa = 1 - 1) by reflexivity.
  assert (H4 : reconnectAttempts sb = 2 - 1) by reflexivity.
  split; [auto|].
  exact (backoff_delay_exponential 1 2 sa sb H1 H2 H3 H4).
Defined.













(** C4, as the code has it.  A connection attempt in which [io] returns
    makes the new handle the socket of the service and registers the eleven
    listeners on it.  The handles opened before are left as they were, with
    their listeners: the calls made are [io] and the registrations on the new
    handle, nothing else. *)
Theorem connect_opens_fresh_handle (st : State) :
  let st' := exec (connect false) st in
  returns (connect false) st = true /\
  socket st' = Some (length (sockets st)) /\
  sockets st' = sockets st ++ [mkSocket false false fresh_listeners] /\
  calls st' = calls st ++ Io :: registrations (length (sockets st)).
Proof.
  cbn zeta. unfold exec, returns. rewrite connect_opens. cbn. auto.
Qed.

(** C4 fails as stated: after one failed attempt and its retry two handles
    are live, the first with all its listeners; a points update received on
    each of them is dispatched twice and shown twice. *)
Lemma two_live_handles :
  let st := run true [first_access; failed 0; Timeout 0 false] in
  let st' :=
    steps st [inbound 0 "points-update" fifty_points;
              inbound 1 "points-update" fifty_points] in
  List.map live (sockets st) = [true; true] /\
  List.map listeners (sockets st) = [fresh_listeners; fresh_listeners] /\
  effects st = [] /\
  List.map (fun e => match e with
                     | DispatchEvent t _ => t
                     | Toast _ t _ => default "" t
                     | Invoked _ _ => ""
                     end) (effects st') =
    ["points-update"; "+50 points earned! 🎉";
     "points-update"; "+50 points earned! 🎉"].
Proof. vm_compute. auto. Qed.

(** ** The page keeps its kind *)

Ltac unfold_primitives :=
  unfold io, socket_on, socket_off, socket_removeAllListeners, socket_emit,
    socket_disconnect, setTimeout, window_dispatchEvent, toast, toast_success,
    toast_error, field, log_call, log_effect, update_socket.

Ltac context_leaves :=
  preserve; try (apply preserves_modify; intros ? H; exact H).

Lemma context_handleReconnect (w : bool) :
  preserves (in_context w) handleReconnect.
Proof. unfold handleReconnect. unfold_primitives. context_leaves. Qed.

Lemma context_register (w : bool) (s : nat) (ls : list (string * Handler)) :
  preserves (in_context w) (register s ls).
Proof.
  induction ls as [|[event h] ls IH]; cbn; [apply preserves_ret|].
  apply preserves_bind; [|intros _; exact IH].
  unfold_primitives. context_leaves.
Qed.

Lemma context_connect (w : bool) (raises : bool) :
  preserves (in_context w) (connect raises).
Proof.
  unfold connect, setupEventListeners. unfold_primitives.
  preserve; auto using context_register, context_handleReconnect;
    apply preserves_modify; intros ? H; exact H.
Qed.

Lemma context_run_handler (w : bool) (h : Handler) (a : Value) :
  preserves (in_context w) (run_handler h a).
Proof.
  destruct h; cbn;
    unfold on_connect, on_disconnect, on_connect_error, on_leaderboard_update,
      on_points_update, on_badge_unlocked, on_streak_update,
      on_quiz_session_update, on_course_enrollment, on_notification,
      on_competition_announcement;
    unfold_primitives;
    preserve; auto using context_handleReconnect;
    apply preserves_modify; intros ? H; exact H.
Qed.

Lemma context_run_callbacks (w : bool) (raises : nat -> bool)
    (cbs : list Callback) (a : Value) :
  preserves (in_context w) (run_callbacks raises cbs a).
Proof.
  induction cbs as [|cb cbs IH]; cbn; [apply preserves_ret|].
  apply preserves_bind; [|intros _; exact IH].
  destruct cb; cbn; [apply context_run_handler|].
  unfold_primitives. context_leaves.
Qed.

Lemma context_method (w : bool) (op : Op) (env : Env) :
  preserves (in_context w) (method op env).
Proof.
  destruct op; cbn;
    unfold undefined, joinCourse, leaveCourse, joinLeaderboard,
      leaveLeaderboard, submitQuizAnswer, startQuiz, completeLesson,
      sendHeartbeat, updateActivity, isConnected, disconnect, emit, on, off,
      send;
    unfold_primitives; context_leaves.
Qed.

Lemma context_step (w : bool) (st : State) (e : Step) :
  in_context w st -> in_context w (step st e).
Proof.
  destruct e as [op env|s ev raises|i r]; cbn.
  - assert (Hp : preserves (in_context w) (call op env)); [|apply Hp].
    unfold call, getWebSocketService, new_WebSocketService, invoke.
    preserve; auto using context_connect, context_method;
      try (apply preserves_modify; intros ? H; exact H).
    destruct op; apply preserves_ret.
  - assert (Hp : preserves (in_context w) (receive s ev raises));
      [|apply Hp].
    unfold receive. unfold_primitives.
    preserve; auto using context_run_callbacks;
      apply preserves_modify; intros ? H; exact H.
  - assert (Hp : preserves (in_context w) (timeout i r)); [|apply Hp].
    unfold timeout.
    preserve; auto using context_connect;
      apply preserves_modify; intros ? H; exact H.
Qed.

Lemma context_run (w : bool) (es : list Step) :
  window_defined (run w es) = w.
Proof.
  unfold run. assert (H : in_context w (initial w)) by reflexivity.
  revert H. generalize (initial w).
  induction es as [|e es IH]; intros st H; cbn; [exact H|].
  apply IH, context_step, H.
Qed.

Lemma server_step (st : State) (e : Step) :
  window_defined st = false -> sockets st = [] -> timers st = [] ->
  step st e = st.
Proof.
  intros Hw Hs Ht. destruct e as [op env|s ev raises|i r]; cbn; unfold exec.
  - unfold call, getWebSocketService, bind, get. rewrite Hw. cbn.
    now destruct op.
  - unfold receive, bind, get. now rewrite Hs.
  - now rewrite timeout_idle.
Qed.

Lemma server_run (es : list Step) : run false es = initial false.
Proof.
  unfold run. induction es as [|e es IH]; cbn; [reflexivity|].
  now rewrite server_step.
Qed.

Lemma reachable_handle_window (st : State) (s : nat) (h : Socket) :
  reachable st -> sockets st !! s = Some h -> window_defined st = true.
Proof.
  intros ([|] & es & ->) Hs.
  - apply context_run.
  - rewrite server_run in Hs. discriminate Hs.
Qed.

(** ** Invariants of the steps, in general *)

Section StepInvariant.

Variable P : State -> Prop.

Hypothesis P_calls : forall v st, P st -> P (set_calls v st).
Hypothesis P_effects : forall v st, P st -> P (set_effects v st).
Hypothesis P_created : forall v st, P st -> P (set_websocketService v st).
Hypothesis P_reset : forall st, P st -> P (set_reconnectAttempts 0 st).
Hypothesis P_stop : forall st, P st -> P (set_socket None st).
Hypothesis P_delete :
  forall i st, P st -> P (set_timers (delete i (timers st)) st).
Hypothesis P_edit :
  forall s f st,
    (forall h, edited (listeners h) (listeners (f h))) ->
    P st -> P (set_sockets (alter f s (sockets st)) st).
Hypothesis P_handleReconnect : preserves P handleReconnect.
Hypothesis P_connect : forall r, preserves P (connect r).

Lemma kept_log_call (c : TransportCall) : preserves P (log_call c).
Proof. apply preserves_modify. intros st. apply P_calls. Qed.

Lemma kept_log_effect (e : Effect) : preserves P (log_effect e).
Proof. apply preserves_modify. intros st. apply P_effects. Qed.

Lemma kept_update_socket (s : nat) (f : Socket -> Socket) :
  (forall h, edited (listeners h) (listeners (f h))) ->
  preserves P (update_socket s f).
Proof. intros Hf. apply preserves_modify. intros st. now apply P_edit. Qed.

Lemma kept_run_handler (h : Handler) (a : Value) :
  preserves P (run_handler h a).
Proof.
  destruct h; cbn;
    unfold on_connect, on_disconnect, on_connect_error, on_leaderboard_update,
      on_points_update, on_badge_unlocked, on_streak_update,
      on_quiz_session_update, on_course_enrollment, on_notification,
      on_competition_announcement, field, window_dispatchEvent, toast,
      toast_success, toast_error;
    preserve;
    auto using kept_log_effect, P_handleReconnect, preserves_modify.
Qed.

Lemma kept_run_callbacks (raises : nat -> bool) (cbs : list Callback)
    (a : Value) :
  preserves P (run_callbacks raises cbs a).
Proof.
  induction cbs as [|cb cbs IH]; cbn; [apply preserves_ret|].
  apply preserves_bind; [|intros _; exact IH].
  destruct cb; cbn; [apply kept_run_handler |].
  preserve. apply kept_log_effect.
Qed.

Lemma kept_receive (s : nat) (ev : TransportEvent) (raises : nat -> bool) :
  preserves P (receive s ev raises).
Proof.
  unfold receive. preserve; auto using kept_run_callbacks;
    apply kept_update_socket; intros h'; apply edited_same.
Qed.

Lemma kept_timeout (i : nat) (r : bool) : preserves P (timeout i r).
Proof.
  unfold timeout. intros st H. unfold exec, bind, get.
  destruct (timers st !! i); [|exact H].
  unfold modify. apply P_connect, P_delete, H.
Qed.

Lemma kept_method (op : Op) (env : Env) : preserves P (method op env).
Proof.
  destruct op; cbn;
    unfold undefined, joinCourse, leaveCourse, joinLeaderboard,
      leaveLeaderboard, submitQuizAnswer, startQuiz, completeLesson,
      sendHeartbeat, updateActivity, isConnected, disconnect, emit, on, off,
      send, socket_emit, socket_on, socket_off, socket_removeAllListeners,
      socket_disconnect;
    preserve;
    auto using kept_log_call, preserves_modify;
    apply kept_update_socket; intros h; cbn; constructor.
Qed.

Lemma kept_call (op : Op) (env : Env) : preserves P (call op env).
Proof.
  unfold call, getWebSocketService, new_WebSocketService, invoke.
  preserve; auto using kept_method, preserves_modify.
  destruct op; apply preserves_ret.
Qed.

Lemma kept_step (st : State) (e : Step) : P st -> P (step st e).
Proof.
  destruct e; cbn; [apply kept_call | apply kept_receive | apply kept_timeout].
Qed.

Lemma kept_reachable (st : State) :
  (forall w, P (initial w)) -> reachable st -> P st.
Proof.
  intros Hi (w & es & ->). unfold run.
  specialize (Hi w). revert Hi. generalize (initial w).
  induction es as [|e es IH]; intros st H; cbn; [exact H|].
  apply IH, kept_step, H.
Qed.

End StepInvariant.

(** ** The order of the listeners *)

Lemma sublist_map {A B} (f : A -> B) (l1 l2 : list A) :
  sublist l1 l2 -> sublist (List.map f l1) (List.map f l2).
Proof. induction 1; cbn; now constructor. Qed.

Lemma sublist_filter_bool {A} (p : A -> bool) (l1 l2 : list A) :
  sublist l1 l2 -> sublist (List.filter p l1) (List.filter p l2).
Proof.
  induction 1 as [|x l1 l2 H IH|x l1 l2 H IH]; cbn.
  - constructor.
  - destruct (p x); [now constructor | exact IH].
  - destruct (p x); [now constructor | exact IH].
Qed.

Lemma sublist_filter_self {A} (p : A -> bool) (l : list A) :
  sublist (List.filter p l) l.
Proof.
  induction l as [|x l IH]; cbn; [constructor|].
  destruct (p x); now constructor.
Qed.

Lemma sublist_remove_first (event : string) (cb : Callback)
    (ls : list (string * Callback)) :
  sublist (remove_first event cb ls) ls.
Proof.
  induction ls as [|l ls IH]; cbn; [constructor|].
  destruct (is_listener event cb l); [|now constructor].
  constructor. reflexivity.
Qed.

Lemma Forall_sublist_of {A} (P : A -> Prop) (l1 l2 : list A) :
  sublist l1 l2 -> Forall P l2 -> Forall P l1.
Proof.
  induction 1 as [|x l1 l2 H IH|x l1 l2 H IH]; intros Hl.
  - constructor.
  - inversion Hl; subst. constructor; auto.
  - inversion Hl; subst. auto.
Qed.

Lemma service_first_sublist (cbs cbs' : list Callback) :
  sublist cbs' cbs -> service_first cbs -> service_first cbs'.
Proof.
  unfold service_first. induction 1 as [|x l1 l2 H IH|x l1 l2 H IH]; cbn.
  - auto.
  - intros Hl. eapply Forall_sublist_of; eassumption.
  - intros Hl. apply Forall_tail. eapply Forall_sublist_of; eassumption.
Qed.

Lemma service_first_user (cbs : list Callback) (id : nat) :
  service_first cbs -> service_first (cbs ++ [User id]).
Proof.
  unfold service_first. destruct cbs as [|cb cbs]; cbn; [constructor|].
  intros H. apply Forall_app. split; [exact H | now repeat constructor].
Qed.

Lemma subscribers_edited (event : string) (h h' : Socket) :
  edited (listeners h) (listeners h') ->
  service_first (subscribers event h) ->
  service_first (subscribers event h').
Proof.
  unfold subscribers. intros He. inversion He as [l|l e id|l e cb|l keep].
  - auto.
  - rewrite List.filter_app, List.map_app. cbn.
    destruct (String.eqb e event); cbn.
    + apply service_first_user.
    + now rewrite app_nil_r.
  - apply service_first_sublist, sublist_map, sublist_filter_bool,
      sublist_remove_first.
  - apply service_first_sublist, sublist_map, sublist_filter_bool,
      sublist_filter_self.
Qed.

Lemma subscribers_fresh (event : string) :
  service_first (subscribers event (mkSocket false false fresh_listeners)).
Proof.
  unfold service_first, subscribers, fresh_listeners, service_listeners.
  cbn -[String.eqb].
  repeat
    match goal with
    | |- context [String.eqb ?x event] =>
        destruct (String.eqb_spec x event);
        [subst; vm_compute; constructor | cbn -[String.eqb]]
    end.
  constructor.
Qed.

Lemma orderly_handleReconnect : preserves orderly handleReconnect.
Proof.
  intros st H. unfold exec.
  destruct (Z.lt_ge_cases (reconnectAttempts st) maxReconnectAttempts).
  - now rewrite handleReconnect_below.
  - now rewrite handleReconnect_exhausted.
Qed.

Lemma orderly_connect (r : bool) : preserves orderly (connect r).
Proof.
  intros st H. unfold exec. destruct r.
  - rewrite connect_raises. now apply orderly_handleReconnect.
  - rewrite connect_opens. unfold orderly in *. cbn.
    apply Forall_app. split; [exact H|].
    constructor; [|constructor]. apply subscribers_fresh.
Qed.

Lemma orderly_reachable (st : State) : reachable st -> orderly st.
Proof.
  apply kept_reachable; try (intros; assumption).
  - intros s f st' Hf H. unfold orderly in *. cbn.
    apply Forall_alter; [exact H|]. intros h _ Hh event.
    eapply subscribers_edited; [apply Hf | apply Hh].
  - exact orderly_handleReconnect.
  - exact orderly_connect.
  - intros w. constructor.
Qed.

(** ** Inbound messages *)

Lemma set_effects_same (st : State) : set_effects (effects st) st = st.
Proof. now destruct st. Qed.

Lemma run_user_callbacks (raises : nat -> bool) (ids : list nat) (a : Value)
    (st : State) :
  run_callbacks raises (List.map User ids) a st =
    (if none_raises raises ids then Normal tt else Thrown,
     set_effects (effects st ++ invocations (called raises ids) a) st).
Proof.
  revert st. induction ids as [|id ids IH]; intros st; cbn.
  - now rewrite app_nil_r, set_effects_same.
  - unfold bind, log_effect, modify, when.
    destruct (raises id); cbn.
    + reflexivity.
    + rewrite IH. unfold set_effects. cbn. now rewrite <- app_assoc.
Qed.

Lemma receive_message (s : nat) (topic : string) (a : Value)
    (raises : nat -> bool) (h : Socket) (st : State) :
  sockets st !! s = Some h ->
  String.eqb topic "connect" = false ->
  String.eqb topic "disconnect" = false ->
  receive s (mkEvent topic a) raises st =
    run_callbacks raises (subscribers topic h) a st.
Proof.
  intros Hs Hc Hd. unfold receive, bind, get. rewrite Hs. cbn.
  now rewrite Hc, Hd.
Qed.

Ltac same_state :=
  unfold set_effects; cbn; rewrite <- ?app_assoc, ?app_nil_r;
  try reflexivity;
  match goal with s : State |- _ => now destruct s end.

Lemma run_reserved_handler (topic : string) (h : Handler) (a : Value)
    (st : State) :
  In (topic, h) reserved ->
  run_handler h a st =
    (match fields a with Some _ => Normal tt | None => Thrown end,
     set_effects
       (effects st ++
        (if window_defined st && dispatches h
         then [DispatchEvent topic (Some a)] else []) ++
        match fields a with Some d => intent h d | None => [] end) st).
Proof.
  intros Hin. cbn in Hin.
  destruct Hin as [H|[H|[H|[H|[H|[]]]]]]; inversion H; subst; clear H; cbn.
  - unfold on_points_update, bind, get, when, window_dispatchEvent, field,
      toast_success, log_effect, modify, ret, throw.
    destruct (window_defined st), a as [|r|d]; cbn;
      try destruct (pointsGained d) as [v|]; cbn;
      try destruct (positive v); cbn; same_state.
  - unfold on_badge_unlocked, bind, get, when, window_dispatchEvent, field,
      toast_success, log_effect, modify, ret, throw.
    destruct (window_defined st), a as [|r|d]; cbn; same_state.
  - unfold on_streak_update, bind, get, when, window_dispatchEvent, field,
      toast_success, log_effect, modify, ret, throw.
    destruct (window_defined st), a as [|r|d]; cbn;
      try destruct (streakMilestone d) as [v|]; cbn;
      try destruct (truthy v); cbn; same_state.
  - unfold on_notification, bind, get, field, toast, toast_success,
      toast_error, log_effect, modify, ret, throw, has_type.
    rewrite andb_false_r.
    destruct a as [|r|d]; cbn; try same_state.
    destruct (type d) as [t|]; [|reflexivity].
    destruct (String.eqb t "success"); [reflexivity|].
    destruct (String.eqb t "info"); [reflexivity|].
    destruct (String.eqb t "warning"); [reflexivity|].
    destruct (String.eqb t "error"); reflexivity.
  - unfold on_competition_announcement, bind, field, toast, log_effect,
      modify, ret, throw.
    rewrite andb_false_r. destruct a as [|r|d]; cbn; same_state.
Qed.

Lemma users_only (cbs : list Callback) :
  Forall (fun cb => is_service cb = false) cbs ->
  cbs = List.map User (users cbs) /\ existsb is_service cbs = false.
Proof.
  induction 1 as [|[h|id] cbs Hcb Hcbs [IH1 IH2]]; cbn.
  - auto.
  - discriminate Hcb.
  - split; [now rewrite <- IH1 | exact IH2].
Qed.

Lemma reserved_handler (topic : string) (h h' : Handler) :
  In (topic, h) reserved -> handler_event h' = topic -> h' = h.
Proof.
  intros Hin. cbn in Hin.
  destruct Hin as [H|[H|[H|[H|[H|[]]]]]]; inversion H; subst; clear H;
    destruct h'; cbn; intros E; try reflexivity; discriminate E.
Qed.

Lemma reserved_topic (topic : string) (h : Handler) :
  In (topic, h) reserved ->
  String.eqb topic "connect" = false /\
  String.eqb topic "disconnect" = false /\
  (dispatches h = false <->
   topic = "notification" \/ topic = "competition-announcement").
Proof.
  intros Hin. cbn in Hin.
  destruct Hin as [H|[H|[H|[H|[H|[]]]]]]; inversion H; subst; clear H;
    (split; [reflexivity|]); (split; [reflexivity|]); cbn;
    (split;
     [ intros H; (discriminate H || auto)
     | intros [H|H]; (discriminate H || reflexivity) ]).
Qed.

(** A round of listeners for one of the five topics, on a handle whose
    listeners are in order. *)
Lemma receive_reserved (topic : string) (h : Handler) (a : Value)
    (raises : nat -> bool) (s : nat) (hd : Socket) (st : State) :
  well_wired st ->
  orderly st ->
  In (topic, h) reserved ->
  sockets st !! s = Some hd ->
  let ids := users (subscribers topic hd) in
  receive s (mkEvent topic a) raises st =
    (if carries topic hd
     then match fields a with
          | Some _ => if none_raises raises ids then Normal tt else Thrown
          | None => Thrown
          end
     else if none_raises raises ids then Normal tt else Thrown,
     set_effects
       (effects st ++
        if carries topic hd
        then (if window_defined st && dispatches h
              then [DispatchEvent topic (Some a)] else []) ++
             match fields a with
             | Some d => intent h d ++ invocations (called raises ids) a
             | None => []
             end
        else invocations (called raises ids) a) st).
Proof.
  intros Hw Ho Hin Hs. cbn zeta.
  destruct (reserved_topic topic h Hin) as (Hc & Hd & _).
  rewrite (receive_message s topic a raises hd st Hs Hc Hd).
  pose proof (Forall_lookup_1 _ _ _ _ Ho Hs topic) as Hfirst.
  pose proof (subscribers_wired topic hd (Forall_lookup_1 _ _ _ _ Hw Hs))
    as Hwired.
  unfold carries. unfold service_first in Hfirst.
  destruct (subscribers topic hd) as [|[h0|id] t].
  - cbn. now rewrite app_nil_r, set_effects_same.
  - cbn in Hfirst. destruct (users_only t Hfirst) as [Ht _].
    apply Forall_cons in Hwired as [Hh0 _].
    rewrite (reserved_handler topic h h0 Hin Hh0).
    cbn [run_callbacks run_callback existsb is_service orb users].
    unfold bind. rewrite (run_reserved_handler topic h a st Hin).
    destruct (fields a) as [d|]; [|reflexivity].
    rewrite Ht at 1. rewrite run_user_callbacks.
    unfold set_effects. cbn. now rewrite <- !app_assoc.
  - assert (Hall : Forall (fun cb => is_service cb = false) (User id :: t))
      by now constructor.
    destruct (users_only _ Hall) as [Ht He]. rewrite He.
    rewrite Ht at 1. now rewrite run_user_callbacks.
Qed.

(** ** The claims on messages *)

(** C7, as the code has it.  In a reachable state, take a message on one of
    the five topics, with any argument, received on any handle.  If the
    handle still has the listener of the service under the topic, the message
    is first passed on as a window event, for points-update, badge-unlocked
    and streak-update only; then, when the message has an argument, the toast
    of the topic is shown and the callbacks of the application on that handle
    are called in their order, up to and including the first that raises;
    when it has no argument the listener raises, and there is no toast and no
    callback called.  If the handle has lost the listener of the service,
    only the callbacks are called, the same way. *)
Theorem reserved_topics_toast_and_dispatch (topic : string) (h : Handler)
    (a : Value) (raises : nat -> bool) (s : nat) (hd : Socket) (st : State) :
  reachable st ->
  In (topic, h) reserved ->
  sockets st !! s = Some hd ->
  let ids := users (subscribers topic hd) in
  let st' := exec (receive s (mkEvent topic a) raises) st in
  (dispatches h = false <->
   topic = "notification" \/ topic = "competition-announcement") /\
  effects st' =
    effects st ++
    (if carries topic hd
     then (if dispatches h then [DispatchEvent topic (Some a)] else []) ++
          match fields a with
          | Some d => intent h d ++ invocations (called raises ids) a
          | None => []
          end
     else invocations (called raises ids) a) /\
  returns (receive s (mkEvent topic a) raises) st =
    (if carries topic hd
     then match fields a with
          | Some _ => none_raises raises ids
          | None => false
          end
     else none_raises raises ids).
Proof.
  intros Hr Hin Hs. cbn zeta.
  split; [apply (reserved_topic topic h Hin)|].
  pose proof (reachable_invariant st Hr) as [_ Hw].
  pose proof (orderly_reachable st Hr) as Ho.
  unfold exec, returns.
  rewrite (receive_reserved topic h a raises s hd st Hw Ho Hin Hs).
  rewrite (reachable_handle_window st s hd Hr Hs). cbn [fst snd andb].
  split; [reflexivity|].
  destruct (carries topic hd), (fields a),
    (none_raises raises (users (subscribers topic hd))); reflexivity.
Qed.

Lemma reserved_topics_toast_and_dispatch_witness :
  let st :=
    run true [first_access; Call (On "notification" 7) calm;
              Call (On "notification" 8) calm] in
  let hd :=
    mkSocket false false
      (fresh_listeners ++
       [("notification", User 7); ("notification", User 8)]) in
  let a := VObject info_notification in
  let raises := Nat.eqb 7 in
  (reachable st /\
   In ("notification", OnNotification) reserved /\
   sockets st !! 0%nat = Some hd) /\
  effects (exec (receive 0 (mkEvent "notification" a) raises) st) =
    [Toast ToastPlain (Some "Maintenance at noon") (timed 4000);
     Invoked 7 a] /\
  returns (receive 0 (mkEvent "notification" a) raises) st = false.
Proof.
  intros st hd a raises.
  assert (H0 : reachable st).
  { exists true, [first_access; Call (On "notification" 7) calm;
                  Call (On "notification" 8) calm].
    reflexivity. }
  assert (H1 : In ("notification", OnNotification) reserved)
    by (cbn; tauto).
  assert (H2 : sockets st !! 0%nat = Some hd) by reflexivity.
  split; [auto|].
  exact (proj2 (reserved_topics_toast_and_dispatch "notification"
           OnNotification a raises 0%nat hd st H0 H1 H2)).
Defined.

(** C7 fails as stated: the application subscribes to notification; after a
    failed attempt and its retry the service has a second handle; a
    notification received on it shows the toast, and that is all: no window
    event is dispatched and the subscriber is not called. *)
Lemma notification_reaches_no_subscriber :
  let st :=
    run true [first_access; Call (On "notification" 7) calm; failed 0;
              Timeout 0 false] in
  let st' := step st (inbound 1 "notification" info_notification) in
  socket st = Some 1%nat /\
  effects st = [] /\
  effects st' = [Toast ToastPlain (Some "Maintenance at noon") (timed 4000)].
Proof. vm_compute. auto. Qed.

(** C8, as the code has it.  In a reachable state, take a points update
    with an argument, received on any handle.  If the handle still has the
    points-update listener of the service, the message is dispatched once as
    a window event, one toast with the amount is shown when [pointsGained] is
    there and positive and none otherwise, and the callbacks of the
    application on that handle are called in their order, up to and including
    the first that raises.  If the handle has lost the listener of the
    service, there is no window event and no toast: only the callbacks are
    called.  For an integer amount [n], positive means [0 < n] and the toast
    carries [n] in decimal. *)
Theorem points_update_toast_and_dispatch (a : Value) (d : Data)
    (raises : nat -> bool) (s : nat) (hd : Socket) (st : State) :
  reachable st ->
  sockets st !! s = Some hd ->
  fields a = Some d ->
  let ids := users (subscribers "points-update" hd) in
  let st' := exec (receive s (mkEvent "points-update" a) raises) st in
  let toasted :=
    match pointsGained d with
    | Some v => if positive v then [points_toast (text v)] else []
    | None => []
    end in
  effects st' =
    effects st ++
    (if carries "points-update" hd
     then [DispatchEvent "points-update" (Some a)] ++ toasted ++
          invocations (called raises ids) a
     else invocations (called raises ids) a) /\
  (forall n,
     pointsGained d = Some (integer n) ->
     toasted = if 0 <? n then [points_toast (pretty n)] else []).
Proof.
  intros Hr Hs Hd. cbn zeta. split.
  - assert (Hin : In ("points-update", OnPointsUpdate) reserved)
      by (cbn; tauto).
    pose proof (reachable_invariant st Hr) as [_ Hw].
    pose proof (orderly_reachable st Hr) as Ho.
    unfold exec.
    rewrite (receive_reserved _ _ a raises s hd st Hw Ho Hin Hs).
    rewrite (reachable_handle_window st s hd Hr Hs), Hd. reflexivity.
  - intros n ->. reflexivity.
Qed.

Lemma points_update_toast_and_dispatch_witness :
  let st := run true [first_access; Call (On "points-update" 7) calm] in
  let hd :=
    mkSocket false false (fresh_listeners ++ [("points-update", User 7)]) in
  let a := VObject fifty_points in
  (reachable st /\
   sockets st !! 0%nat = Some hd /\
   fields a = Some fifty_points /\
   pointsGained fifty_points = Some (integer 50)) /\
  effects (exec (receive 0 (mkEvent "points-update" a) silent) st) =
    [DispatchEvent "points-update" (Some a); points_toast "50"; Invoked 7 a].
Proof.
  intros st hd a.
  assert (H1 : reachable st).
  { exists true, [first_access; Call (On "points-update" 7) calm].
    reflexivity. }
  assert (H2 : sockets st !! 0%nat = Some hd) by reflexivity.
  assert (H3 : fields a = Some fifty_points) by reflexivity.
  assert (H4 : pointsGained fifty_points = Some (integer 50)) by reflexivity.
  split; [auto|].
  exact (proj1 (points_update_toast_and_dispatch a fifty_points silent 0%nat
                  hd st H1 H2 H3)).
Defined.

(** C8 fails as stated: the application calls [off('points-update')]
    without a callback, which removes the listener of the service as well; a
    points update of 50 received then shows no toast and is not dispatched.
    And a callback registered before a retry is not called for a points
    update received on the handle of the retry. *)
Lemma points_update_silenced_by_off :
  let st := run true [first_access; Call (Off "points-update" None) calm] in
  let st' := step st (inbound 0 "points-update" fifty_points) in
  let retried :=
    run true [first_access; Call (On "points-update" 7) calm; failed 0;
              Timeout 0 false] in
  let retried' := step retried (inbound 1 "points-update" fifty_points) in
  positive (integer 50) = true /\
  effects st = [] /\
  effects st' = [] /\
  effects retried = [] /\
  effects retried' =
    [DispatchEvent "points-update" (Some (VObject fifty_points));
     points_toast "50"].
Proof. vm_compute. auto 10. Qed.


(** ** The claims on the public methods *)

Lemma method_without_socket (op : Op) (env : Env) (st : State) :
  socket st = None ->
  method op env st = (Normal (default_result op), st).
Proof.
  intros Hs.
  destruct op; cbn;
    unfold undefined, joinCourse, leaveCourse, joinLeaderboard,
      leaveLeaderboard, submitQuizAnswer, startQuiz, completeLesson,
      sendHeartbeat, updateActivity, isConnected, disconnect, emit, on, off,
      send, bind, get;
    now rewrite Hs.
Qed.

Lemma method_sends (op : Op) (env : Env) (event : string) (data : Payload)
    (s : nat) (st : State) :
  sends op env = Some (event, data) ->
  socket st = Some s ->
  method op env st =
    (if emit_raises env then Thrown else Normal RUndefined,
     set_calls (calls st ++ [SocketEmit s event data]) st).
Proof.
  intros Hop Hs.
  destruct op; cbn in Hop; inversion Hop; subst; clear Hop; cbn;
    unfold undefined, joinCourse, leaveCourse, joinLeaderboard,
      leaveLeaderboard, submitQuizAnswer, startQuiz, completeLesson,
      sendHeartbeat, updateActivity, emit, send, socket_emit, log_call, bind,
      get, modify;
    rewrite Hs; now destruct (emit_raises env).
Qed.

(** C6, as the code has it.  A command, or [emit], called while the service
    holds no socket sends nothing, changes nothing and returns.  Called while
    the service holds a socket, connected or not, it makes one call of
    [socket.emit] on it, with the event and the payload of the command. *)
Theorem commands_dropped_without_socket (op : Op) (env : Env)
    (event : string) (data : Payload) (st : State) :
  sends op env = Some (event, data) ->
  (socket st = None -> method op env st = (Normal RUndefined, st)) /\
  (forall s,
     socket st = Some s ->
     calls (exec (method op env) st) = calls st ++ [SocketEmit s event data] /\
     returns (method op env) st = negb (emit_raises env)).
Proof.
  intros Hop. split.
  - intros Hs. rewrite method_without_socket by exact Hs.
    now destruct op.
  - intros s Hs. unfold exec, returns.
    rewrite (method_sends op env event data s st Hop Hs).
    now destruct (emit_raises env).
Qed.

Lemma commands_dropped_without_socket_witness :
  let op := JoinCourse "c1" "u1" in
  let stopped := run true [first_access; Call Disconnect calm] in
  let st := run true [first_access] in
  (sends op calm = Some ("join-course", join_course_payload) /\
   socket stopped = None /\ socket st = Some 0%nat) /\
  method op calm stopped = (Normal RUndefined, stopped) /\
  calls (exec (method op calm) st) =
    calls st ++ [SocketEmit 0 "join-course" join_course_payload].
Proof.
  intros op stopped st.
  assert (H1 : sends op calm = Some ("join-course", join_course_payload))
    by reflexivity.
  assert (H2 : socket stopped = None) by reflexivity.
  assert (H3 : socket st = Some 0%nat) by reflexivity.
  split; [auto|]. split.
  - exact (proj1 (commands_dropped_without_socket op calm _ _ stopped H1) H2).
  - exact (proj1 (proj2 (commands_dropped_without_socket op calm _ _ st H1)
                    0%nat H3)).
Defined.

(** C6 fails as stated: right after the instance is created its handle is
    not connected and [isConnected] answers [false]; [joinCourse] called then
    makes a call of [socket.emit]. *)
Lemma command_sent_while_not_connected :
  let st := run true [first_access] in
  let st' := step st (Call (JoinCourse "c1" "u1") calm) in
  fst (call IsConnected calm st) = Normal (RBoolean false) /\
  List.filter is_emit (calls st) = [] /\
  List.filter is_emit (calls st') =
    [SocketEmit 0 "join-course" join_course_payload].
Proof. vm_compute. auto. Qed.

(** C9.  On a page without [window], every operation reached through the
    accessor returns, gives [false] for [isConnected] and [undefined]
    otherwise, and leaves the state as it was: no instance is created, no
    handle is opened, no call is made.  Whatever happens on such a page, its
    state stays the initial one. *)
Theorem server_side_operations_do_nothing (op : Op) (env : Env) (st : State) :
  window_defined st = false ->
  useWebSocket env st = (Normal MockService, st) /\
  call op env st = (Normal (default_result op), st) /\
  (forall es, run false es = initial false).
Proof.
  intros Hw. unfold useWebSocket, call, getWebSocketService, bind, get.
  rewrite Hw. cbn. split; [reflexivity|]. split; [now destruct op|].
  apply server_run.
Qed.

Lemma server_side_operations_do_nothing_witness :
  let st := initial false in
  window_defined st = false /\
  call IsConnected calm st = (Normal (RBoolean false), st) /\
  call (JoinCourse "c1" "u1") calm st = (Normal RUndefined, st).
Proof.
  intros st.
  assert (H : window_defined st = false) by reflexivity.
  split; [exact H|]. split.
  - exact (proj1 (proj2
             (server_side_operations_do_nothing IsConnected calm st H))).
  - exact (proj1 (proj2
             (server_side_operations_do_nothing (JoinCourse "c1" "u1")
                calm st H))).
Defined.




(** * Further properties *)

(** ** The socket is the newest handle *)

Lemma newest_handleReconnect : preserves newest handleReconnect.
Proof.
  intros st H. unfold exec.
  destruct (Z.lt_ge_cases (reconnectAttempts st) maxReconnectAttempts).
  - now rewrite handleReconnect_below.
  - now rewrite handleReconnect_exhausted.
Qed.

Lemma newest_connect (r : bool) : preserves newest (connect r).
Proof.
  intros st H. unfold exec. destruct r.
  - rewrite connect_raises. now apply newest_handleReconnect.
  - rewrite connect_opens. intros s Hs. cbn in *.
    inversion Hs; subst. rewrite length_app. cbn. lia.
Qed.

Lemma newest_reachable (st : State) : reachable st -> newest st.
Proof.
  apply kept_reachable; try (intros; assumption).
  - intros st' _ s Hs. discriminate Hs.
  - intros s f st' _ H s' Hs. cbn in *. rewrite length_alter. now apply H.
  - exact newest_handleReconnect.
  - exact newest_connect.
  - intros w s Hs. discriminate Hs.
Qed.

(** X1.  In every reachable state the socket of the service, when it is not
    null, is the handle that was opened last, and that handle exists: an
    older handle is never the socket again. *)
Theorem socket_is_newest_handle (st : State) (s : nat) :
  reachable st ->
  socket st = Some s ->
  S s = length (sockets st) /\
  exists h, sockets st !! s = Some h.
Proof.
  intros Hr Hs. pose proof (newest_reachable st Hr s Hs) as Hn.
  split; [exact Hn|]. apply lookup_lt_is_Some. lia.
Qed.

Lemma socket_is_newest_handle_witness :
  let st := run true [first_access; failed 0; Timeout 0 false] in
  (reachable st /\ socket st = Some 1%nat) /\
  2%nat = length (sockets st) /\
  exists h, sockets st !! 1%nat = Some h.
Proof.
  intros st.
  assert (Hr : reachable st).
  { exists true, [first_access; failed 0; Timeout 0 false]. reflexivity. }
  assert (Hs : socket st = Some 1%nat) by reflexivity.
  split; [auto|].
  exact (socket_is_newest_handle st 1%nat Hr Hs).
Defined.

(** ** One listener of the service per event and handle *)

Lemma service_count_edited (event : string)
    (ls ls' : list (string * Callback)) :
  edited ls ls' ->
  (service_count event ls' <= service_count event ls)%nat.
Proof.
  unfold service_count. intros [l|l e id|l e cb|l keep].
  - reflexivity.
  - rewrite List.filter_app, length_app. cbn.
    rewrite andb_false_r. cbn. lia.
  - induction l as [|x l IH]; cbn; [lia|].
    destruct (is_listener e cb x); cbn.
    + destruct (_ && _); cbn; lia.
    + destruct (_ && _); cbn; lia.
  - induction l as [|x l IH]; cbn; [lia|].
    destruct (keep x); cbn; destruct (_ && _); cbn; lia.
Qed.

Lemma service_count_fresh (event : string) :
  (service_count event fresh_listeners <= 1)%nat.
Proof.
  unfold service_count, fresh_listeners, service_listeners.
  cbn -[String.eqb].
  repeat
    match goal with
    | |- context [String.eqb ?x event] =>
        destruct (String.eqb_spec x event);
        [subst; vm_compute; lia | cbn -[String.eqb]]
    end.
  lia.
Qed.

Lemma singly_wired_handleReconnect : preserves singly_wired handleReconnect.
Proof.
  intros st H. unfold exec.
  destruct (Z.lt_ge_cases (reconnectAttempts st) maxReconnectAttempts).
  - now rewrite handleReconnect_below.
  - now rewrite handleReconnect_exhausted.
Qed.

Lemma singly_wired_connect (r : bool) : preserves singly_wired (connect r).
Proof.
  intros st H. unfold exec. destruct r.
  - rewrite connect_raises. now apply singly_wired_handleReconnect.
  - rewrite connect_opens. unfold singly_wired in *. cbn.
    apply Forall_app. split; [exact H|].
    constructor; [|constructor]. intros event. apply service_count_fresh.
Qed.

Lemma singly_wired_reachable (st : State) : reachable st -> singly_wired st.
Proof.
  apply kept_reachable; try (intros; assumption).
  - intros s f st' Hf H. unfold singly_wired in *. cbn.
    apply Forall_alter; [exact H|]. intros h _ Hh event.
    etransitivity; [apply service_count_edited, Hf | apply Hh].
  - exact singly_wired_handleReconnect.
  - exact singly_wired_connect.
  - intros w. constructor.
Qed.

Ltac case_split :=
  repeat
    (cbn -[String.eqb Z.geb Z.gtb Z.eqb Z.pow Z.mul Z.add pretty String.append];
     match goal with
     | |- context [if ?b then _ else _] => destruct b
     | |- context [match ?x with Some _ => _ | None => _ end] => destruct x
     | |- context [match ?x with
                   | VUndefined => _ | VString _ => _ | VObject _ => _
                   end] => destruct x
     end).

Ltac added_effects :=
  cbn -[String.eqb Z.geb Z.gtb Z.eqb Z.pow Z.mul Z.add pretty String.append];
  rewrite <- ?app_assoc;
  first
    [ exists []; rewrite app_nil_r; split; [reflexivity | cbn; lia]
    | eexists; split; [reflexivity | cbn; lia] ].

Lemma run_handler_effects (h : Handler) (a : Value) (st : State) :
  exists es,
    effects (exec (run_handler h a) st) = effects st ++ es /\
    (count is_toast es <= 1 /\ count is_dispatch es <= 1)%nat.
Proof.
  unfold exec, count.
  destruct h; cbn [run_handler];
    unfold on_connect, on_disconnect, on_connect_error, on_leaderboard_update,
      on_points_update, on_badge_unlocked, on_streak_update,
      on_quiz_session_update, on_course_enrollment, on_notification,
      on_competition_announcement, handleReconnect, setTimeout, field,
      strict_eq, window_dispatchEvent, toast, toast_success, toast_error,
      log_effect, modify, get, bind, when, ret, throw;
    case_split; added_effects.
Qed.

Lemma count_app (p : Effect -> bool) (es es' : list Effect) :
  count p (es ++ es') = (count p es + count p es')%nat.
Proof. unfold count. now rewrite List.filter_app, length_app. Qed.

Lemma run_callbacks_effects (raises : nat -> bool) (cbs : list Callback)
    (a : Value) (st : State) :
  exists es,
    effects (exec (run_callbacks raises cbs a) st) = effects st ++ es /\
    (count is_toast es <= length (List.filter is_service cbs) /\
     count is_dispatch es <= length (List.filter is_service cbs))%nat.
Proof.
  revert st. induction cbs as [|cb cbs IH]; intros st.
  - exists []. cbn. now rewrite app_nil_r.
  - assert (H1 : exists es,
        effects (exec (run_callback raises cb a) st) = effects st ++ es /\
        (count is_toast es <= length (List.filter is_service [cb]) /\
         count is_dispatch es <= length (List.filter is_service [cb]))%nat).
    { destruct cb as [h|id]; cbn.
      - apply run_handler_effects.
      - exists [Invoked id a]. unfold exec, bind, log_effect, modify, when.
        destruct (raises id); cbn; auto. }
    destruct H1 as (es1 & E1 & T1 & D1).
    cbn [run_callbacks]. unfold exec, bind in *.
    destruct (run_callback raises cb a st) as [[[]|] st1]; cbn [snd] in *.
    + destruct (IH st1) as (es2 & E2 & T2 & D2).
      exists (es1 ++ es2). rewrite E2, E1, <- app_assoc, !count_app.
      split; [reflexivity|]. cbn in *. destruct (is_service cb); cbn in *; lia.
    + exists es1. split; [exact E1|].
      cbn in *. destruct (is_service cb); cbn in *; lia.
Qed.

Lemma service_subscribers (event : string) (h : Socket) :
  length (List.filter is_service (subscribers event h)) =
  service_count event (listeners h).
Proof.
  unfold subscribers, service_count.
  induction (listeners h) as [|[e cb] ls IH]; cbn; [reflexivity|].
  destruct (String.eqb e event); cbn; [|exact IH].
  destruct (is_service cb); cbn; now rewrite IH.
Qed.

Lemma receive_effects (s : nat) (ev : TransportEvent) (raises : nat -> bool)
    (st : State) :
  singly_wired st ->
  exists es,
    effects (exec (receive s ev raises) st) = effects st ++ es /\
    (count is_toast es <= 1 /\ count is_dispatch es <= 1)%nat.
Proof.
  intros Hw. unfold exec, receive, bind at 1, get at 1.
  destruct (sockets st !! s) as [h|] eqn:Hs.
  - assert (Hh : (length (List.filter is_service (subscribers (name ev) h))
                  <= 1)%nat).
    { rewrite service_subscribers.
      exact (Forall_lookup_1 _ _ _ _ Hw Hs (name ev)). }
    assert (H : exists st2,
      effects st2 = effects st /\
      (when (String.eqb (name ev) "connect")
         (update_socket s (fun h => mkSocket true (closed h) (listeners h))) >>
       when (String.eqb (name ev) "disconnect")
         (update_socket s (fun h => mkSocket false (closed h) (listeners h))) >>
       run_callbacks raises (subscribers (name ev) h) (arg ev)) st =
      run_callbacks raises (subscribers (name ev) h) (arg ev) st2).
    { destruct (String.eqb (name ev) "connect"),
        (String.eqb (name ev) "disconnect");
        unfold bind, when, update_socket, modify, ret;
        (eexists; split; [|reflexivity]; reflexivity). }
    destruct H as (st2 & E & ->).
    destruct (run_callbacks_effects raises (subscribers (name ev) h)
                (arg ev) st2)
      as (es & Ees & T & D).
    exists es. unfold exec in Ees. rewrite Ees, E. split; [reflexivity|]. lia.
  - exists []. cbn. rewrite app_nil_r.
    split; [reflexivity | unfold count; cbn; lia].
Qed.

(** X2.  In every reachable state, one event emitted by one handle shows at most
    one toast and dispatches at most one window event; what was shown
    before stays. *)
Theorem event_shows_at_most_one_toast (st : State) (s : nat)
    (ev : TransportEvent) (raises : nat -> bool) :
  reachable st ->
  exists es,
    effects (exec (receive s ev raises) st) = effects st ++ es /\
    (count is_toast es <= 1 /\ count is_dispatch es <= 1)%nat.
Proof.
  intros Hr. apply receive_effects, singly_wired_reachable, Hr.
Qed.

Lemma event_shows_at_most_one_toast_witness :
  let st := run true [first_access; Call (On "points-update" 7) calm] in
  let ev := mkEvent "points-update" (VObject fifty_points) in
  reachable st /\
  exists es,
    effects (exec (receive 0 ev silent) st) = effects st ++ es /\
    (count is_toast es <= 1 /\ count is_dispatch es <= 1)%nat.
Proof.
  intros st ev.
  assert (Hr : reachable st).
  { exists true, [first_access; Call (On "points-update" 7) calm].
    reflexivity. }
  split; [exact Hr|].
  exact (event_shows_at_most_one_toast st 0%nat ev silent Hr).
Defined.

(** ** The delays of the pending retries *)

Lemma in_range_handleReconnect : preserves timers_in_range handleReconnect.
Proof.
  intros st [Hb Ht]. unfold exec.
  destruct (Z.lt_ge_cases (reconnectAttempts st) maxReconnectAttempts)
    as [Hlt|Hge].
  - rewrite handleReconnect_below by assumption.
    unfold bounded, maxReconnectAttempts in Hb, Hlt.
    split.
    + change (0 <= reconnectAttempts st + 1 <= 5). lia.
    + cbn [timers set_timers]. apply Forall_app. split; [exact Ht|].
      constructor; [|constructor].
      unfold backoff_range, reconnectDelay, maxReconnectAttempts.
      assert (H0 : 2 ^ 0 <= 2 ^ reconnectAttempts st)
        by (apply Z.pow_le_mono_r; lia).
      assert (H4 : 2 ^ reconnectAttempts st <= 2 ^ 4)
        by (apply Z.pow_le_mono_r; lia).
      change (2 ^ 0) with 1 in H0. change (2 ^ 4) with 16 in H4.
      change (2 ^ (5 - 1)) with 16. lia.
  - rewrite handleReconnect_exhausted by assumption. now split.
Qed.

Lemma in_range_connect (r : bool) : preserves timers_in_range (connect r).
Proof.
  intros st H. unfold exec. destruct r.
  - rewrite connect_raises. now apply in_range_handleReconnect.
  - rewrite connect_opens. exact H.
Qed.

Lemma in_range_reachable (st : State) : reachable st -> timers_in_range st.
Proof.
  apply kept_reachable; try (intros; assumption).
  - intros st' [Hb Ht]. split; [|exact Ht].
    change (0 <= 0 <= 5). lia.
  - intros i st' [Hb Ht]. split; [exact Hb|].
    change (Forall backoff_range (delete i (timers st'))).
    now apply Forall_delete.
  - exact in_range_handleReconnect.
  - exact in_range_connect.
  - intros w. split; [|constructor]. change (0 <= 0 <= 5). lia.
Qed.

(** X3.  In every reachable state each pending retry has one of the backoff
    delays: it fires after one second at least and sixteen seconds at
    most. *)
Theorem pending_retries_within_backoff (st : State) (d : Z) :
  reachable st ->
  In d (timers st) ->
  1000 <= d <= 16000.
Proof.
  intros Hr Hd. destruct (in_range_reachable st Hr) as [_ Ht].
  rewrite Forall_forall in Ht. apply list_elem_of_In in Hd.
  exact (Ht d Hd).
Qed.

Lemma pending_retries_within_backoff_witness :
  let st := run true [first_access; failed 0; failed 0] in
  (reachable st /\ In 2000 (timers st)) /\ 1000 <= 2000 <= 16000.
Proof.
  intros st.
  assert (Hr : reachable st).
  { exists true, [first_access; failed 0; failed 0]. reflexivity. }
  assert (Hd : In 2000 (timers st)) by (vm_compute; tauto).
  split; [auto|].
  exact (pending_retries_within_backoff st 2000 Hr Hd).
Defined.

(** ** The accessor and the constructor *)

Lemma first_access_eq (env : Env) (st : State) :
  window_defined st = true ->
  websocketService st = false ->
  getWebSocketService env st =
    (Normal Instance,
     set_websocketService true
       (if io_raises env
        then set_timers (timers st ++ [reconnectDelay])
               (set_reconnectAttempts 1
                  (set_calls (calls st ++ [Io])
                     (set_reconnectAttempts 0 (set_socket None st))))
        else connected_to_fresh_handle
               (set_reconnectAttempts 0 (set_socket None st)))).
Proof.
  intros Hw Hc.
  unfold getWebSocketService, bind at 1, get at 1. rewrite Hw. cbn [negb].
  unfold bind at 1, get at 1. rewrite Hc. cbn [negb when].
  unfold new_WebSocketService, bind, modify.
  destruct (io_raises env).
  - rewrite connect_raises, handleReconnect_below by reflexivity.
    reflexivity.
  - now rewrite connect_opens.
Qed.

(** X4.  On a page with a [window], the first access constructs the instance
    and returns it, whether [io] raises or not.  When [io] returns, the new
    handle is the socket, the counter is 0 and no retry is added.  When [io]
    raises, no handle is opened, the socket stays null, the counter is 1 and
    a retry is set after [reconnectDelay]. *)
Theorem first_access_constructs (env : Env) (st : State) :
  window_defined st = true ->
  websocketService st = false ->
  let st' := exec (getWebSocketService env) st in
  fst (getWebSocketService env st) = Normal Instance /\
  websocketService st' = true /\
  (io_raises env = false ->
   socket st' = Some (length (sockets st)) /\
   sockets st' = sockets st ++ [mkSocket false false fresh_listeners] /\
   reconnectAttempts st' = 0 /\
   timers st' = timers st) /\
  (io_raises env = true ->
   socket st' = None /\
   sockets st' = sockets st /\
   reconnectAttempts st' = 1 /\
   timers st' = timers st ++ [reconnectDelay]).
Proof.
  intros Hw Hc. cbn zeta. unfold exec.
  rewrite (first_access_eq env st Hw Hc). cbn [fst snd].
  split; [reflexivity|]. split; [reflexivity|].
  split; intros ->; repeat split; reflexivity.
Qed.

Lemma first_access_constructs_witness :
  let env := {| io_raises := true; emit_raises := false; now := 0 |} in
  let st := initial true in
  (window_defined st = true /\ websocketService st = false) /\
  fst (getWebSocketService env st) = Normal Instance /\
  socket (exec (getWebSocketService env) st) = None /\
  timers (exec (getWebSocketService env) st) = [] ++ [reconnectDelay] /\
  socket (exec (getWebSocketService calm) st) = Some 0%nat.
Proof.
  intros env st.
  assert (Hw : window_defined st = true) by reflexivity.
  assert (Hc : websocketService st = false) by reflexivity.
  split; [auto|].
  destruct (first_access_constructs env st Hw Hc) as (R & _ & _ & F).
  destruct (first_access_constructs calm st Hw Hc) as (_ & _ & O & _).
  destruct (F eq_refl) as (S1 & _ & _ & T1).
  destruct (O eq_refl) as (S2 & _).
  auto.
Defined.


(** ** [connect] when [io] raises, and the counter after a connection *)

(** X6.  A connection attempt in which [io] raises returns all the same, opens
    no handle and leaves the socket of the service as it was.  The failure
    is handled like any other: below the bound the counter goes up and a
    retry is set with the backoff delay; at the bound the user is told and
    nothing is scheduled. *)
Theorem connect_failure_keeps_socket (st : State) :
  let st' := exec (connect true) st in
  returns (connect true) st = true /\
  socket st' = socket st /\
  sockets st' = sockets st /\
  calls st' = calls st ++ [Io] /\
  (reconnectAttempts st < maxReconnectAttempts ->
   reconnectAttempts st' = reconnectAttempts st + 1 /\
   timers st' = timers st ++ [reconnectDelay * 2 ^ reconnectAttempts st] /\
   effects st' = effects st) /\
  (given_up st ->
   reconnectAttempts st' = reconnectAttempts st /\
   timers st' = timers st /\
   effects st' = effects st ++ [gave_up_toast]).
Proof.
  cbn zeta. unfold exec, returns. rewrite connect_raises.
  set (st0 := set_calls (calls st ++ [Io]) st).
  destruct (Z.lt_ge_cases (reconnectAttempts st) maxReconnectAttempts)
    as [Hlt|Hge].
  - rewrite (handleReconnect_below st0) by exact Hlt. cbn [fst snd].
    split; [reflexivity|]. split; [reflexivity|]. split; [reflexivity|].
    split; [reflexivity|]. split; [intros _; repeat split; reflexivity|].
    intros Hg. unfold given_up in Hg. lia.
  - rewrite (handleReconnect_exhausted st0) by exact Hge. cbn [fst snd].
    split; [reflexivity|]. split; [reflexivity|]. split; [reflexivity|].
    split; [reflexivity|]. split; [intros Hlt; lia|].
    intros _. repeat split; reflexivity.
Qed.

Lemma connect_failure_keeps_socket_witness :
  let st := run true [first_access] in
  let gone := run true exhausting in
  (reconnectAttempts st < maxReconnectAttempts /\ given_up gone) /\
  socket (exec (connect true) st) = Some 0%nat /\
  timers (exec (connect true) st) = [] ++ [1000 * 2 ^ 0] /\
  timers (exec (connect true) gone) = [].
Proof.
  intros st gone.
  assert (H1 : reconnectAttempts st < maxReconnectAttempts) by reflexivity.
  assert (H2 : given_up gone) by (vm_compute; discriminate).
  split; [auto|].
  destruct (connect_failure_keeps_socket st) as (_ & S & _ & _ & B & _).
  destruct (connect_failure_keeps_socket gone) as (_ & _ & _ & _ & _ & G).
  split; [exact S|]. split; [exact (proj1 (proj2 (B H1)))|].
  exact (proj1 (proj2 (G H2))).
Defined.

Lemma on_connect_eq (st : State) :
  on_connect st =
    (Normal tt,
     if window_defined st
     then set_effects
            (effects st ++ [DispatchEvent "websocket-connected" None])
            (set_reconnectAttempts 0 st)
     else set_reconnectAttempts 0 st).
Proof.
  unfold on_connect, bind, modify, get, when, window_dispatchEvent,
    log_effect, ret.
  cbn [window_defined set_reconnectAttempts].
  now destruct (window_defined st).
Qed.

(** X7.  The listener of ['connect'] sets the counter to 0 whatever it was, so
    that the failure that follows starts the backoff again: the counter is
    1 and the retry is set after [reconnectDelay]. *)
Theorem connect_event_restarts_backoff (st : State) :
  let st' := exec (on_connect >> on_connect_error) st in
  reconnectAttempts (exec on_connect st) = 0 /\
  timers (exec on_connect st) = timers st /\
  reconnectAttempts st' = 1 /\
  timers st' = timers st ++ [reconnectDelay].
Proof.
  cbn zeta. unfold exec, bind. rewrite on_connect_eq.
  unfold on_connect_error.
  destruct (window_defined st);
    rewrite handleReconnect_below by reflexivity;
    repeat split; reflexivity.
Qed.

(** ** The methods and the state of the reconnection *)



(** ** [on] and [off] *)

Lemma is_listener_spec (event : string) (cb : Callback)
    (l : string * Callback) :
  is_listener event cb l = true <-> l = (event, cb).
Proof.
  unfold is_listener. destruct l as [e c]. cbn.
  rewrite andb_true_iff, String.eqb_eq, bool_decide_eq_true.
  split; [intros [-> ->]; reflexivity | intros H; inversion H; auto].
Qed.

Lemma remove_first_new (event : string) (cb : Callback)
    (ls : list (string * Callback)) :
  ~ In (event, cb) ls ->
  remove_first event cb (ls ++ [(event, cb)]) = ls.
Proof.
  induction ls as [|l ls IH]; intros Hn; cbn.
  - assert (H : is_listener event cb (event, cb) = true)
      by now apply is_listener_spec.
    now rewrite H.
  - destruct (is_listener event cb l) eqn:E.
    + apply is_listener_spec in E. subst. exfalso. apply Hn. now left.
    + f_equal. apply IH. intros H. apply Hn. now right.
Qed.

Lemma alter_alter_back {A} (f g : A -> A) (l : list A) (i : nat) (x : A) :
  l !! i = Some x -> g (f x) = x -> alter g i (alter f i l) = l.
Proof.
  revert i. induction l as [|y l IH]; intros [|i] Hl Hx; cbn in *;
    try discriminate.
  - inversion Hl; subst. now rewrite Hx.
  - f_equal. now apply IH.
Qed.

(** X9.  A callback that is not yet registered under an event, registered with
    [on] and removed again with [off], leaves the listeners of every handle
    as they were; both calls return. *)
Theorem on_off_round_trip (event : string) (cb s : nat) (h : Socket)
    (st : State) :
  socket st = Some s ->
  sockets st !! s = Some h ->
  ~ In (event, User cb) (listeners h) ->
  let st' := exec (on event cb >> off event (Some cb)) st in
  returns (on event cb >> off event (Some cb)) st = true /\
  sockets st' = sockets st /\
  calls st' =
    calls st ++ [SocketOn s event (User cb); SocketOff s event (User cb)].
Proof.
  intros Hs Hh Hn. cbn zeta. unfold exec, returns.
  unfold on, off, socket_on, socket_off, log_call, update_socket, modify,
    get, bind, ret.
  cbn [socket set_calls set_sockets]. rewrite Hs.
  cbn [fst snd socket sockets calls set_calls set_sockets].
  rewrite Hs. cbn [fst snd socket sockets calls set_calls set_sockets].
  split; [reflexivity|]. split.
  - apply (alter_alter_back _ _ _ _ h Hh). destruct h as [c d ls]. cbn.
    f_equal. now apply remove_first_new.
  - now rewrite <- app_assoc.
Qed.

Lemma on_off_round_trip_witness :
  let st := run true [first_access] in
  let h := mkSocket false false fresh_listeners in
  (socket st = Some 0%nat /\ sockets st !! 0%nat = Some h /\
   ~ In ("points-update", User 7) (listeners h)) /\
  sockets
    (exec (on "points-update" 7 >> off "points-update" (Some 7%nat)) st) =
    sockets st.
Proof.
  intros st h.
  assert (H1 : socket st = Some 0%nat) by reflexivity.
  assert (H2 : sockets st !! 0%nat = Some h) by reflexivity.
  assert (H3 : ~ In ("points-update", User 7) (listeners h)).
  { cbn. intros H. repeat (destruct H as [H|H]; [discriminate H|]).
    exact H. }
  split; [auto|].
  exact (proj1 (proj2 (on_off_round_trip "points-update" 7 0 h st H1 H2 H3))).
Defined.

Lemma subscribers_removed (event : string) (c d : bool)
    (ls : list (string * Callback)) :
  subscribers event
    (mkSocket c d
       (List.filter (fun l => negb (String.eqb (fst l) event)) ls)) = [].
Proof.
  unfold subscribers. cbn. induction ls as [|[e cb] ls IH]; cbn; [reflexivity|].
  destruct (String.eqb e event) eqn:E; cbn; [exact IH|].
  now rewrite E.
Qed.

Lemma subscribers_kept (event other : string) (c d c' d' : bool)
    (ls : list (string * Callback)) :
  other <> event ->
  subscribers other
    (mkSocket c d
       (List.filter (fun l => negb (String.eqb (fst l) event)) ls)) =
  subscribers other (mkSocket c' d' ls).
Proof.
  intros Hne. unfold subscribers. cbn.
  induction ls as [|[e cb] ls IH]; cbn; [reflexivity|].
  destruct (String.eqb_spec e event) as [->|]; cbn.
  - destruct (String.eqb_spec event other); [congruence | exact IH].
  - destruct (String.eqb e other); cbn; now rewrite IH.
Qed.

(** X10.  [off] without a callback removes every listener of the event from the
    socket of the service, the listener of the service included, and leaves
    the listeners of the other events alone.  When the handle emits that
    event afterwards nothing is shown, nothing is scheduled and the counter
    stays: for ['connect_error'] this ends the retries, for a topic its
    toasts. *)
Theorem off_without_callback_silences (event : string) (a : Value)
    (raises : nat -> bool) (s : nat) (h : Socket) (st : State) :
  socket st = Some s ->
  sockets st !! s = Some h ->
  let st' := exec (off event None) st in
  let st'' := exec (receive s (mkEvent event a) raises) st' in
  (exists h',
     sockets st' !! s = Some h' /\
     subscribers event h' = [] /\
     forall other, other <> event -> subscribers other h' = subscribers other h) /\
  effects st'' = effects st /\
  timers st'' = timers st /\
  reconnectAttempts st'' = reconnectAttempts st.
Proof.
  intros Hs Hh. cbn zeta.
  assert (Hoff : exec (off event None) st =
    set_sockets
      (alter (fun h => mkSocket (connected h) (closed h)
                (List.filter (fun l => negb (String.eqb (fst l) event))
                   (listeners h))) s (sockets st))
      (set_calls (calls st ++ [SocketRemoveAllListeners s event]) st)).
  { unfold exec, off, socket_removeAllListeners, log_call, update_socket,
      modify, get, bind. now rewrite Hs. }
  rewrite Hoff.
  set (h' := mkSocket (connected h) (closed h)
               (List.filter (fun l => negb (String.eqb (fst l) event))
                  (listeners h))).
  assert (Hh' : sockets
      (set_sockets
         (alter (fun h => mkSocket (connected h) (closed h)
                   (List.filter (fun l => negb (String.eqb (fst l) event))
                      (listeners h))) s (sockets st))
         (set_calls (calls st ++ [SocketRemoveAllListeners s event]) st))
      !! s = Some h').
  { cbn [sockets set_sockets]. rewrite list_lookup_alter_eq, Hh.
    reflexivity. }
  split.
  - exists h'. split; [exact Hh'|]. split.
    + apply subscribers_removed.
    + intros other Hne. destruct h as [c d ls].
      now apply subscribers_kept.
  - match goal with
    | |- context [exec (receive _ _ _) ?x] => set (st1 := x) in *
    end.
    assert (Hrec : exists st2,
      receive s (mkEvent event a) raises st1 = (Normal tt, st2) /\
      effects st2 = effects st /\ timers st2 = timers st /\
      reconnectAttempts st2 = reconnectAttempts st).
    { unfold receive, bind at 1, get at 1. rewrite Hh'.
      cbn [name arg]. subst h'. rewrite subscribers_removed.
      unfold when, update_socket, modify, bind, ret.
      destruct (String.eqb event "connect"), (String.eqb event "disconnect");
        eexists; (split; [reflexivity|]); repeat split; reflexivity. }
    destruct Hrec as (st2 & Hr & E & T & N). unfold exec. rewrite Hr. auto.
Qed.

Lemma off_without_callback_silences_witness :
  let st := run true [first_access] in
  let h := mkSocket false false fresh_listeners in
  let st' := exec (off "connect_error" None) st in
  (socket st = Some 0%nat /\ sockets st !! 0%nat = Some h) /\
  timers
    (exec (receive 0 (mkEvent "connect_error" VUndefined) silent) st') = [] /\
  reconnectAttempts
    (exec (receive 0 (mkEvent "connect_error" VUndefined) silent) st') = 0.
Proof.
  intros st h st'.
  assert (H1 : socket st = Some 0%nat) by reflexivity.
  assert (H2 : sockets st !! 0%nat = Some h) by reflexivity.
  split; [auto|].
  exact (proj2 (proj2 (off_without_callback_silences "connect_error"
                         VUndefined silent 0%nat h st H1 H2))).
Defined.

(** ** [isConnected] after a retry *)

(** X11.  Right after a connection attempt in which [io] returns, [isConnected]
    answers [false], whatever the state of the handles opened before: it
    looks at the new handle only. *)
Theorem not_connected_after_connect (st : State) :
  isConnected (exec (connect false) st) =
    (Normal false, exec (connect false) st).
Proof.
  unfold exec. rewrite connect_opens. cbn [snd].
  unfold isConnected, bind, get, ret.
  cbn [socket sockets connected_to_fresh_handle].
  now rewrite list_lookup_middle.
Qed.

(** ** The topics that are only passed on *)

Lemma run_relayed_handler (topic : string) (h : Handler) (a : Value)
    (st : State) :
  In (topic, h) relayed ->
  String.eqb topic "connect" = false /\
  String.eqb topic "disconnect" = false /\
  (forall h', handler_event h' = topic -> h' = h) /\
  run_handler h a st =
    (Normal tt,
     set_effects
       (effects st ++
        if window_defined st then [DispatchEvent topic (Some a)] else []) st).
Proof.
  intros Hin. cbn in Hin.
  destruct Hin as [H|[H|[H|[]]]]; inversion H; subst; clear H;
    (split; [reflexivity|]); (split; [reflexivity|]);
    (split;
     [ intros h'; destruct h'; cbn; intros E; try reflexivity; discriminate E
     | cbn;
       unfold on_leaderboard_update, on_quiz_session_update,
         on_course_enrollment, bind, get, when, window_dispatchEvent,
         log_effect, modify, ret;
       destruct (window_defined st) eqn:Hw; cbn;
       [ reflexivity | now rewrite app_nil_r, set_effects_same ] ]).
Qed.

(** X12.  In a reachable state, a message on leaderboard-update,
    quiz-session-update or course-enrollment, with any argument or none,
    received on a handle that still has the listener of the service, is
    dispatched once as a window event with the argument as its detail; then
    the callbacks of the application on that handle are called, up to and
    including the first that raises.  No toast is shown, and the counter and
    the pending retries stay as they are. *)
Theorem relayed_topics_dispatch_only (topic : string) (h : Handler)
    (a : Value) (raises : nat -> bool) (s : nat) (hd : Socket) (st : State) :
  reachable st ->
  In (topic, h) relayed ->
  sockets st !! s = Some hd ->
  let ids := users (subscribers topic hd) in
  let st' := exec (receive s (mkEvent topic a) raises) st in
  effects st' =
    effects st ++
    (if carries topic hd then [DispatchEvent topic (Some a)] else []) ++
    invocations (called raises ids) a /\
  reconnectAttempts st' = reconnectAttempts st /\
  timers st' = timers st.
Proof.
  intros Hr Hin Hs. cbn zeta.
  destruct (run_relayed_handler topic h a st Hin) as (Hc & Hd & Hh & Hrun).
  pose proof (reachable_invariant st Hr) as [_ Hw].
  pose proof (orderly_reachable st Hr) as Ho.
  rewrite (reachable_handle_window st s hd Hr Hs) in Hrun.
  assert (Heq : exists c,
    receive s (mkEvent topic a) raises st =
      (c, set_effects
            (effects st ++
             (if carries topic hd then [DispatchEvent topic (Some a)] else [])
             ++ invocations (called raises (users (subscribers topic hd))) a)
            st)).
  { rewrite (receive_message s topic a raises hd st Hs Hc Hd).
    pose proof (Forall_lookup_1 _ _ _ _ Ho Hs topic) as Hfirst.
    pose proof (subscribers_wired topic hd (Forall_lookup_1 _ _ _ _ Hw Hs))
      as Hwired.
    unfold carries. unfold service_first in Hfirst.
    destruct (subscribers topic hd) as [|[h0|id] t].
    - eexists. cbn. now rewrite app_nil_r, set_effects_same.
    - cbn in Hfirst. destruct (users_only t Hfirst) as [Ht _].
      apply Forall_cons in Hwired as [Hh0 _]. rewrite (Hh h0 Hh0).
      cbn [run_callbacks run_callback existsb is_service orb users].
      eexists. unfold bind. rewrite Hrun. rewrite Ht at 1.
      rewrite run_user_callbacks.
      unfold set_effects. cbn. now rewrite <- !app_assoc.
    - assert (Hall : Forall (fun cb => is_service cb = false) (User id :: t))
        by now constructor.
      destruct (users_only _ Hall) as [Ht He]. rewrite He.
      eexists. rewrite Ht at 1. now rewrite run_user_callbacks. }
  destruct Heq as (c & Heq). unfold exec. rewrite Heq.
  repeat split; reflexivity.
Qed.

Lemma relayed_topics_dispatch_only_witness :
  let st := run true [first_access; Call (On "leaderboard-update" 7) calm] in
  let hd :=
    mkSocket false false
      (fresh_listeners ++ [("leaderboard-update", User 7)]) in
  (reachable st /\
   In ("leaderboard-update", OnLeaderboardUpdate) relayed /\
   sockets st !! 0%nat = Some hd) /\
  effects
    (exec (receive 0 (mkEvent "leaderboard-update" VUndefined) silent) st) =
    [DispatchEvent "leaderboard-update" (Some VUndefined);
     Invoked 7 VUndefined].
Proof.
  intros st hd.
  assert (H0 : reachable st).
  { exists true, [first_access; Call (On "leaderboard-update" 7) calm].
    reflexivity. }
  assert (H1 : In ("leaderboard-update", OnLeaderboardUpdate) relayed)
    by (cbn; tauto).
  assert (H2 : sockets st !! 0%nat = Some hd) by reflexivity.
  split; [auto|].
  exact (proj1 (relayed_topics_dispatch_only "leaderboard-update"
                  OnLeaderboardUpdate VUndefined silent 0%nat hd st
                  H0 H1 H2)).
Defined.
